(** * Gilt yield tracker: reconciliation and derived-metrics engine

    A shallow embedding of the core of [gilt_tracker.py]: the feed parser
    ([parse_boe_csv], [parse_boe_date]), the series statistics
    ([compute_stats], [find_nearest_value]), the reconciliation section of
    [generate_dashboard], and the calculator scripts the dashboard carries
    ([computeSMA], [updateValueChart], [recalculate]).

    Conventions of the embedding.
    - Numbers.  Python's [float] and the script's numbers are read as exact
      rationals ([Q]); [round(x, 4)] is rounding to the nearest multiple of
      1/10000, ties to even.  Values that are not rationals (NaN, the
      infinities) are represented only where the code tests for them.
    - Exceptions.  Code that can raise returns a [result]; a [try]/[except]
      is [catch2] or [catch3], after the exceptions it names.
    - Dates.  The source keeps a date as its ISO text [YYYY-MM-DD] and parses
      it back where it needs a [datetime]; the embedding keeps the calendar
      date.  The text is [strftime_iso]: parsing it gives the date back
      ([strptime_strftime_iso]) and comparing two texts is [date_compare]
      ([strftime_iso_compare]).
    - Text.  Strings are byte strings; [strip] and [upper] act on ASCII.
    - Library calls.  [datetime.strptime] and [float] are parameters of the
      parser section; [strptime] and [float_decimal] below are executable
      instances for the formats and literals the feed uses. *)

From Stdlib Require Import ZArith QArith Qround Qabs Lia List Bool Ascii String.
From Stdlib Require Import Sorting.Sorted Sorting.Permutation.
Import ListNotations.

Local Open Scope Z_scope.

(** ** Exceptions and results *)

Inductive exn : Type :=
| ValueError
| IndexError
| KeyError
| OverflowError
| RuntimeError.

Inductive result (A : Type) : Type :=
| Ok (a : A)
| Raise (e : exn).

Arguments Ok {A} a.
Arguments Raise {A} e.

Definition bind {A B : Type} (m : result A) (k : A -> result B) : result B :=
  match m with
  | Ok a => k a
  | Raise e => Raise e
  end.

Declare Scope result_scope.
Delimit Scope result_scope with result.
Notation "x <- m ;; k" := (bind m (fun x => k))
  (at level 61, m at next level, right associativity) : result_scope.

(** [of_option e o]: a library call that returns a value or raises [e]. *)
Definition of_option {A : Type} (e : exn) (o : option A) : result A :=
  match o with
  | Some a => Ok a
  | None => Raise e
  end.

(** [try: body except (ValueError, IndexError): handler]. *)
Definition catch2 {A : Type} (body : result A) (handler : A) : result A :=
  match body with
  | Ok a => Ok a
  | Raise ValueError => Ok handler
  | Raise IndexError => Ok handler
  | Raise e => Raise e
  end.

(** [try: body except (ValueError, KeyError, IndexError): handler]. *)
Definition catch3 {A : Type} (body : result A) (handler : result A) : result A :=
  match body with
  | Ok a => Ok a
  | Raise ValueError => handler
  | Raise KeyError => handler
  | Raise IndexError => handler
  | Raise e => Raise e
  end.

(** ** Numbers *)

Local Open Scope Q_scope.

(** Nearest integer, ties to even. *)
Definition round_half_even (x : Q) : Z :=
  let f := Qfloor x in
  match Qcompare (x - inject_Z f) (1 # 2) with
  | Lt => f
  | Gt => (f + 1)%Z
  | Eq => if Z.even f then f else (f + 1)%Z
  end.

(** [round(x, 4)]. *)
Definition round4 (x : Q) : Q := Qmake (round_half_even (x * 10000)) 10000.

(** A value with at most four fractional digits. *)
Definition four_digits (x : Q) : Prop := exists n : Z, x == Qmake n 10000.

(** Truth value of a number: [if x] is false exactly at zero. *)
Definition truthy (x : Q) : bool := negb (Qeq_bool x 0).

Definition Qleb (x y : Q) : bool := Qle_bool x y.
Definition Qltb (x y : Q) : bool := negb (Qle_bool y x).

Local Close Scope Q_scope.

(** ** Calendar dates *)

Record Date : Type := mkDate { year : Z; month : Z; day : Z }.

(** [datetime._is_leap]. *)
Definition is_leap (y : Z) : bool :=
  (y mod 4 =? 0) && (negb (y mod 100 =? 0) || (y mod 400 =? 0)).

(** [datetime._days_before_year]. *)
Definition days_before_year (y : Z) : Z :=
  let p := y - 1 in p * 365 + p / 4 - p / 100 + p / 400.

(** [datetime._DAYS_IN_MONTH], indexed from 1. *)
Definition DAYS_IN_MONTH : list Z := [31; 28; 31; 30; 31; 30; 31; 31; 30; 31; 30; 31].

(** [datetime._days_in_month]. *)
Definition days_in_month (y m : Z) : Z :=
  if (m =? 2) && is_leap y then 29
  else nth (Z.to_nat (m - 1)) DAYS_IN_MONTH 0.

(** [datetime._days_before_month]. *)
Definition days_before_month (y m : Z) : Z :=
  fold_right Z.add 0 (firstn (Z.to_nat (m - 1)) DAYS_IN_MONTH)
  + (if (2 <? m) && is_leap y then 1 else 0).

(** [datetime._ymd2ord]: the proleptic Gregorian ordinal, 1 for 0001-01-01. *)
Definition toordinal (d : Date) : Z :=
  days_before_year (year d) + days_before_month (year d) (month d) + day d.

(** The checks of the [datetime] constructor. *)
Definition valid_date (d : Date) : bool :=
  (1 <=? year d) && (year d <=? 9999) &&
  (1 <=? month d) && (month d <=? 12) &&
  (1 <=? day d) && (day d <=? days_in_month (year d) (month d)).

(** A [datetime] at midnight is its ordinal; [dt - timedelta(days=n)] raises
    [OverflowError] below [datetime.min]. *)
Definition datetime := Z.

Definition MAXORDINAL : Z := 3652059.

Definition sub_days (dt : datetime) (n : Z) : result datetime :=
  let r := dt - n in
  if (1 <=? r) && (r <=? MAXORDINAL) then Ok r else Raise OverflowError.

(** Order of the ISO texts of two dates. *)
Definition date_compare (a b : Date) : comparison :=
  match year a ?= year b with
  | Eq => match month a ?= month b with
          | Eq => day a ?= day b
          | c => c
          end
  | c => c
  end.

Definition date_leb (a b : Date) : bool :=
  match date_compare a b with Gt => false | _ => true end.

Definition date_ltb (a b : Date) : bool :=
  match date_compare a b with Lt => true | _ => false end.


(** ** Observations *)

Record Observation : Type := mkObs { date : Date; yield : Q }.

Definition Series := list Observation.

(** ** Text *)

Local Open Scope string_scope.

(** The ASCII characters for which [str.isspace] holds. *)
Definition is_space (c : ascii) : bool :=
  let n := nat_of_ascii c in
  ((9 <=? n)%nat && (n <=? 13)%nat) || ((28 <=? n)%nat && (n <=? 32)%nat).

Fixpoint lstrip (s : string) : string :=
  match s with
  | String c r => if is_space c then lstrip r else s
  | EmptyString => EmptyString
  end.

Fixpoint rstrip (s : string) : string :=
  match s with
  | EmptyString => EmptyString
  | String c r =>
      match rstrip r with
      | EmptyString => if is_space c then EmptyString else String c EmptyString
      | r' => String c r'
      end
  end.

(** [s.strip()]. *)
Definition strip (s : string) : string := rstrip (lstrip s).

Definition upper_char (c : ascii) : ascii :=
  let n := nat_of_ascii c in
  if (97 <=? n)%nat && (n <=? 122)%nat then ascii_of_nat (n - 32) else c.

(** [s.upper()]. *)
Fixpoint upper (s : string) : string :=
  match s with
  | EmptyString => EmptyString
  | String c r => String (upper_char c) (upper r)
  end.

(** [p in s]. *)
Fixpoint contains (p s : string) : bool :=
  prefix p s ||
  match s with
  | EmptyString => false
  | String _ r => contains p r
  end.

(** [l.index(x)], when [x in l]. *)
Fixpoint index_of (x : string) (l : list string) : option nat :=
  match l with
  | [] => None
  | y :: r => if String.eqb y x then Some O else option_map S (index_of x r)
  end.

(** [s.split(c)[0]]. *)
Fixpoint split_head (c : ascii) (s : string) : string :=
  match s with
  | EmptyString => EmptyString
  | String a r => if Ascii.eqb a c then EmptyString else String a (split_head c r)
  end.

(** ** An executable [datetime.strptime] for the directives the feed uses

    The format is compiled to a pattern as [_strptime] does: whitespace
    stands for one or more whitespace characters, [%d] for
    [3[0-1]|[1-2]\d|0[1-9]|[1-9]| [1-9]], [%m] for [1[0-2]|0[1-9]|[1-9]],
    [%Y] for four digits, [%b] and [%B] for the English month names, any
    other character for itself; letters match in either case.  The pattern
    must match a prefix and nothing may remain after it, and the fields must
    pass [valid_date]. *)

Inductive directive : Type :=
| DDay | DMonth | DYear | DAbbrev | DFull | DSpaces | DLit (c : ascii).

Fixpoint compile_format (fmt : string) : list directive :=
  match fmt with
  | EmptyString => []
  | String "%" (String "d" r) => DDay :: compile_format r
  | String "%" (String "m" r) => DMonth :: compile_format r
  | String "%" (String "Y" r) => DYear :: compile_format r
  | String "%" (String "b" r) => DAbbrev :: compile_format r
  | String "%" (String "B" r) => DFull :: compile_format r
  | String c r => (if is_space c then DSpaces else DLit c) :: compile_format r
  end.

Definition digit_of (c : ascii) : option Z :=
  let n := nat_of_ascii c in
  if (48 <=? n)%nat && (n <=? 57)%nat then Some (Z.of_nat (n - 48)) else None.

Definition MONTHS_FULL : list string :=
  ["JANUARY"; "FEBRUARY"; "MARCH"; "APRIL"; "MAY"; "JUNE"; "JULY"; "AUGUST";
   "SEPTEMBER"; "OCTOBER"; "NOVEMBER"; "DECEMBER"].

Definition MONTHS_ABBREV : list string :=
  ["JAN"; "FEB"; "MAR"; "APR"; "MAY"; "JUN"; "JUL"; "AUG"; "SEP"; "OCT"; "NOV"; "DEC"].

(** [drop_prefix p s]: the rest of [s] after [p], letters in either case. *)
Fixpoint drop_prefix (p s : string) : option string :=
  match p, s with
  | EmptyString, _ => Some s
  | String a p', String b s' =>
      if Ascii.eqb a (upper_char b) then drop_prefix p' s' else None
  | String _ _, EmptyString => None
  end.

(** The fields read so far: year, month, day. *)
Definition fields : Type := (Z * Z * Z)%type.

Definition set_year (f : fields) (y : Z) : fields := let '(_, m, d) := f in (y, m, d).
Definition set_month (f : fields) (m : Z) : fields := let '(y, _, d) := f in (y, m, d).
Definition set_day (f : fields) (d : Z) : fields := let '(y, m, _) := f in (y, m, d).

(** First success of a list of attempts. *)
Fixpoint first_some {A : Type} (l : list (option A)) : option A :=
  match l with
  | [] => None
  | Some a :: _ => Some a
  | None :: r => first_some r
  end.

Section Matcher.

(** What remains of the pattern, as a continuation. *)
Variable rest : string -> fields -> option (string * fields).

Definition two_digits (lo1 hi1 lo2 hi2 : Z) (set : fields -> Z -> fields)
    (s : string) (f : fields) : option (string * fields) :=
  match s with
  | String a (String b r) =>
      match digit_of a, digit_of b with
      | Some x, Some y =>
          if ((lo1 <=? x) && (x <=? hi1) && (lo2 <=? y) && (y <=? hi2))%Z
          then rest r (set f (10 * x + y)) else None
      | _, _ => None
      end
  | _ => None
  end.

Definition one_digit (set : fields -> Z -> fields)
    (s : string) (f : fields) : option (string * fields) :=
  match s with
  | String a r =>
      match digit_of a with
      | Some x => if (1 <=? x)%Z then rest r (set f x) else None
      | None => None
      end
  | _ => None
  end.

Definition match_day (s : string) (f : fields) : option (string * fields) :=
  first_some
    [ two_digits 3 3 0 1 set_day s f;
      two_digits 1 2 0 9 set_day s f;
      two_digits 0 0 1 9 set_day s f;
      one_digit set_day s f;
      match s with
      | String " " r => one_digit set_day r f
      | _ => None
      end ].

Definition match_month (s : string) (f : fields) : option (string * fields) :=
  first_some
    [ two_digits 1 1 0 2 set_month s f;
      two_digits 0 0 1 9 set_month s f;
      one_digit set_month s f ].

Definition match_year (s : string) (f : fields) : option (string * fields) :=
  match s with
  | String a (String b (String c (String d r))) =>
      match digit_of a, digit_of b, digit_of c, digit_of d with
      | Some w, Some x, Some y, Some z =>
          rest r (set_year f (1000 * w + 100 * x + 10 * y + z))
      | _, _, _, _ => None
      end
  | _ => None
  end.

Fixpoint match_name (names : list string) (k : Z) (s : string) (f : fields)
    : option (string * fields) :=
  match names with
  | [] => None
  | n :: ns =>
      match
        match drop_prefix n s with
        | Some r => rest r (set_month f k)
        | None => None
        end
      with
      | Some out => Some out
      | None => match_name ns (k + 1) s f
      end
  end.

(** One or more whitespace characters, as many as there are. *)
Definition match_spaces (s : string) (f : fields) : option (string * fields) :=
  match s with
  | String c r => if is_space c then rest (lstrip r) f else None
  | EmptyString => None
  end.

Definition match_lit (c : ascii) (s : string) (f : fields)
    : option (string * fields) :=
  match s with
  | String a r => if Ascii.eqb (upper_char a) (upper_char c) then rest r f else None
  | EmptyString => None
  end.

End Matcher.

Fixpoint match_pattern (p : list directive) (s : string) (f : fields)
    : option (string * fields) :=
  match p with
  | [] => Some (s, f)
  | DDay :: p' => match_day (match_pattern p') s f
  | DMonth :: p' => match_month (match_pattern p') s f
  | DYear :: p' => match_year (match_pattern p') s f
  | DAbbrev :: p' => match_name (match_pattern p') MONTHS_ABBREV 1 s f
  | DFull :: p' => match_name (match_pattern p') MONTHS_FULL 1 s f
  | DSpaces :: p' => match_spaces (match_pattern p') s f
  | DLit c :: p' => match_lit (match_pattern p') c s f
  end.

(** [datetime.strptime(s, fmt)]; [None] is [ValueError]. *)
Definition strptime (s fmt : string) : option Date :=
  match match_pattern (compile_format fmt) s (1900, 1, 1) with
  | Some (EmptyString, (y, m, d)) =>
      let dt := mkDate y m d in
      if valid_date dt then Some dt else None
  | _ => None
  end.

(** [d.strftime("%Y-%m-%d")]: the year on four digits, month and day on
    two. *)
Definition digit_char (k : Z) : ascii := ascii_of_nat (48 + Z.to_nat k).

Definition pad2 (n : Z) (s : string) : string :=
  String (digit_char (n / 10)) (String (digit_char (n mod 10)) s).

Definition pad4 (n : Z) (s : string) : string :=
  pad2 (n / 100) (pad2 (n mod 100) s).

Definition strftime_iso (d : Date) : string :=
  pad4 (year d) (String "-" (pad2 (month d) (String "-" (pad2 (day d) "")))).

(** ** An executable [float] for plain decimal literals

    [float(s)] for an optional sign, digits and an optional fraction; [None]
    is [ValueError].  (Python also reads exponents, underscores, [inf] and
    [nan], which the feed does not carry.) *)

Fixpoint read_digits (s : string) (acc : Z) (n : nat) : Z * nat * string :=
  match s with
  | String c r =>
      match digit_of c with
      | Some d => read_digits r (10 * acc + d) (S n)
      | None => (acc, n, s)
      end
  | EmptyString => (acc, n, s)
  end.

Definition unsigned_decimal (s : string) : option Q :=
  let '(ip, ni, r) := read_digits s 0 O in
  match r with
  | EmptyString => if (0 <? ni)%nat then Some (inject_Z ip) else None
  | String "." r' =>
      let '(fp, nf, r'') := read_digits r' 0 O in
      match r'' with
      | EmptyString =>
          if (0 <? ni + nf)%nat
          then Some (inject_Z ip + Qmake fp (Pos.pow 10 (Pos.of_nat nf)) *
                                   (if (0 <? nf)%nat then 1 else 0))%Q
          else None
      | _ => None
      end
  | _ => None
  end.

Definition float_decimal (s : string) : option Q :=
  match strip s with
  | String "-" r => option_map Qopp (unsigned_decimal r)
  | String "+" r => unsigned_decimal r
  | r => unsigned_decimal r
  end.

Local Close Scope string_scope.

(** ** Series statistics *)

Local Open Scope result_scope.

(** The loop body of [find_nearest_value]; the state is [(best, best_diff)]. *)
Definition nearest_step (target_date : datetime)
    (st : option Q * option Z) (d : Observation) : option Q * option Z :=
  let diff := Z.abs (toordinal (date d) - target_date) in
  match snd st with
  | None => (Some (yield d), Some diff)
  | Some best_diff =>
      if diff <? best_diff then (Some (yield d), Some diff) else st
  end.

Definition find_nearest_value (data_points : Series) (target_date : datetime)
    : option Q :=
  fst (fold_left (nearest_step target_date) data_points (None, None)).

(** [max(l)] and [min(l)] on a non-empty list: the first extremum met. *)
Definition py_max (x : Q) (l : list Q) : Q :=
  fold_left (fun m y => if Qltb m y then y else m) l x.

Definition py_min (x : Q) (l : list Q) : Q :=
  fold_left (fun m y => if Qltb y m then y else m) l x.

(** [l.index(x)] for numbers. *)
Fixpoint index_q (x : Q) (l : list Q) : option nat :=
  match l with
  | [] => None
  | y :: r => if Qeq_bool y x then Some O else option_map S (index_q x r)
  end.

Record Stats : Type := mkStats {
  current_yield : Q;
  current_date : Date;
  previous_yield : Q;
  daily_change : Q;
  high_12m : Q;
  low_12m : Q;
  high_date : Date;
  low_date : Date;
  week_change : option Q;
  month_change : option Q;
  ytd_change : option Q;
  data_points_count : nat
}.

(** [round(cur - v, 4) if v else None], for [v] a looked-up value. *)
Definition change_if (cur : Q) (v : option Q) : option Q :=
  match v with
  | Some x => if truthy x then Some (round4 (cur - x)) else None
  | None => None
  end.

(** [compute_stats]; the empty dictionary is [None]. *)
Definition compute_stats (data_points : Series) : result (option Stats) :=
  match data_points with
  | [] => Ok None
  | first :: others =>
      let yields := map yield data_points in
      let current := last data_points first in
      let previous :=
        if (2 <=? List.length data_points)%nat
        then nth (List.length data_points - 2) data_points first
        else last data_points first in
      let current_date := toordinal (date current) in
      week_ago_target <- sub_days current_date 7 ;;
      month_ago_target <- sub_days current_date 30 ;;
      let year_start := toordinal (mkDate (year (date current)) 1 1) in
      let week_ago_val := find_nearest_value data_points week_ago_target in
      let month_ago_val := find_nearest_value data_points month_ago_target in
      let ytd_start_val := find_nearest_value data_points year_start in
      let hi := py_max (yield first) (map yield others) in
      let lo := py_min (yield first) (map yield others) in
      hi_idx <- of_option ValueError (index_q hi yields) ;;
      lo_idx <- of_option ValueError (index_q lo yields) ;;
      Ok (Some {|
        current_yield := yield current;
        current_date := date current;
        previous_yield := yield previous;
        daily_change := round4 (yield current - yield previous);
        high_12m := round4 hi;
        low_12m := round4 lo;
        high_date := date (nth hi_idx data_points first);
        low_date := date (nth lo_idx data_points first);
        week_change := change_if (yield current) week_ago_val;
        month_change := change_if (yield current) month_ago_val;
        ytd_change := change_if (yield current) ytd_start_val;
        data_points_count := List.length data_points
      |})
  end.

(** ** Feed parser and source reconciler *)

Definition SERIES_CODE : string := "IUDMNZC".

(** The live quote; the keys not listed are only displayed. *)
Record LiveQuote : Type := mkLive {
  live_yield : option Q;
  last_time : option string
}.

(** What the reconciliation section of [generate_dashboard] leaves behind:
    the chart arrays, the three variables [spread], [spread_ok] and
    [current_yield], the warning it prints, and the spread the chart
    subtitle shows. *)
Record ReconciledView : Type := mkView {
  dates_json : list Date;
  yields_json : list Q;
  spread : Q;
  spread_ok : bool;
  headline_value : Q;
  warning : option Q;
  subtitle_spread : option Q
}.

Definition SPREAD_MIN : Q := 0.40.
Definition SPREAD_MAX : Q := 1.00.

(** The state of the row loop of [parse_boe_csv]. *)
Record ParserState : Type := mkPS {
  header_found : bool;
  date_col : option nat;
  yield_col : option nat;
  data_points : list Observation
}.

(** The state in which the row loop starts. *)
Definition initial_state : ParserState :=
  {| header_found := false; date_col := None; yield_col := None;
     data_points := [] |}.

(** [enumerate] scan for the first cell that contains the series code. *)
Fixpoint find_code (i : nat) (cells : list string) : option nat :=
  match cells with
  | [] => None
  | cell :: r => if contains SERIES_CODE cell then Some i else find_code (S i) r
  end.

(** [row[col]]. *)
Definition row_get (row : list string) (col : option nat) : result string :=
  match col with
  | Some i => of_option IndexError (nth_error row i)
  | None => Raise IndexError
  end.

Definition is_empty (s : string) : bool :=
  match s with EmptyString => true | _ => false end.

(** Stable insertion into a list sorted by date: after the equal keys. *)
Fixpoint insert_by_date (x : Observation) (l : Series) : Series :=
  match l with
  | [] => [x]
  | y :: r => if date_ltb (date x) (date y) then x :: l else y :: insert_by_date x r
  end.

(** [l.sort(key=lambda x: x["date"])]: the stable ascending sort. *)
Definition sort_by_date (l : Series) : Series :=
  fold_left (fun acc x => insert_by_date x acc) l [].

Section Feed.

(** [datetime.strptime(s, fmt)] and [float(s)]; [None] is [ValueError]. *)
Variable py_strptime : string -> string -> option Date.
Variable py_float : string -> option Q.

Definition formats : list string :=
  ["%d %b %Y"; "%d %B %Y"; "%d/%m/%Y"; "%Y-%m-%d"]%string.

(** The format loop of [parse_boe_date]. *)
Fixpoint try_formats (date_str : string) (fmts : list string) : result Date :=
  match fmts with
  | [] => Raise ValueError
  | fmt :: r =>
      match py_strptime date_str fmt with
      | Some d => Ok d
      | None => try_formats date_str r
      end
  end.

Definition parse_boe_date (date_str : string) : result Date :=
  try_formats date_str formats.

(** The [try] block of the row loop: the observation to append, or [None]
    where the block reaches [continue]. *)
Definition parse_row (st : ParserState) (row : list string)
    : result (option Observation) :=
  date_cell <- row_get row (date_col st) ;;
  let date_str := strip date_cell in
  yield_cell <- row_get row (yield_col st) ;;
  let yield_str := strip yield_cell in
  if is_empty date_str || is_empty yield_str then Ok None
  else
    date_obj <- parse_boe_date date_str ;;
    yield_val <- of_option ValueError (py_float yield_str) ;;
    Ok (Some {| date := date_obj; yield := round4 yield_val |}).

(** One iteration of the row loop. *)
Definition parse_step (st : ParserState) (row : list string)
    : result ParserState :=
  if forallb (fun cell => is_empty (strip cell)) row then Ok st
  else if negb (header_found st) then
    let upper_row := map (fun cell => upper (strip cell)) row in
    match index_of "DATE"%string upper_row with
    | Some i =>
        let yc := match find_code O upper_row with
                  | Some j => Some j
                  | None => yield_col st
                  end in
        Ok {| header_found := match yc with Some _ => true | None => false end;
              date_col := Some i;
              yield_col := yc;
              data_points := data_points st |}
    | None => Ok st
    end
  else
    new_point <- catch2 (parse_row st row) None ;;
    match new_point with
    | Some p =>
        Ok {| header_found := header_found st;
              date_col := date_col st;
              yield_col := yield_col st;
              data_points := data_points st ++ [p] |}
    | None => Ok st
    end.

Fixpoint parse_rows (st : ParserState) (rows : list (list string))
    : result ParserState :=
  match rows with
  | [] => Ok st
  | row :: r => st' <- parse_step st row ;; parse_rows st' r
  end.

(** [parse_boe_csv], on the rows that [csv.reader] yields. *)
Definition parse_boe_csv (rows : list (list string)) : result Series :=
  st <- parse_rows initial_state rows ;;
  Ok (sort_by_date (data_points st)).

(** The date of the live quote in [generate_dashboard]. *)
Definition quote_date (stats : Stats) (live_data : LiveQuote) : result datetime :=
  catch3
    (stamp <- of_option KeyError (last_time live_data) ;;
     let cnbc_ts := split_head "T" stamp in
     d <- of_option ValueError (py_strptime cnbc_ts "%Y-%m-%d"%string) ;;
     Ok (toordinal d))
    (Ok (toordinal (current_date stats))).

(** The reconciliation section of [generate_dashboard]: from the test of
    [has_live] to the choice of the headline yield.  What follows in the
    function (the wording of the summary, the formatting, the page itself)
    is presentation and is not embedded. *)
Definition generate_dashboard (data_points : Series) (stats : Stats)
    (live_data : option LiveQuote) : result ReconciledView :=
  let dates := map date data_points in
  let unadjusted :=
    {| dates_json := dates;
       yields_json := map yield data_points;
       spread := 0;
       spread_ok := false;
       headline_value := current_yield stats;
       warning := None;
       subtitle_spread := None |} in
  match live_data with
  | None => Ok unadjusted
  | Some live =>
      match live_yield live with
      | None => Ok unadjusted
      | Some live_y =>
          cnbc_date <- quote_date stats live ;;
          let matched_boe :=
            match find_nearest_value data_points cnbc_date with
            | Some v => v
            | None => current_yield stats
            end in
          let spread := round4 (live_y - matched_boe) in
          if Qleb SPREAD_MIN spread && Qleb spread SPREAD_MAX then
            Ok {| dates_json := dates;
                  yields_json :=
                    map (fun d => round4 (yield d + spread)) data_points;
                  spread := spread;
                  spread_ok := true;
                  headline_value := live_y;
                  warning := None;
                  subtitle_spread := Some spread |}
          else
            Ok {| dates_json := dates;
                  yields_json := map yield data_points;
                  spread := 0;
                  spread_ok := false;
                  headline_value := live_y;
                  warning := Some spread;
                  subtitle_spread := None |}
      end
  end.

(** [fetch_and_generate], from the rows of the response and the live quote
    that was fetched, as far as the reconciliation; saving and printing are
    left out. *)
Definition fetch_and_generate (rows : list (list string))
    (live_data : option LiveQuote)
    : result (Series * Stats * ReconciledView) :=
  data_points <- parse_boe_csv rows ;;
  match data_points with
  | [] => Raise RuntimeError
  | _ :: _ =>
      stats <- compute_stats data_points ;;
      match stats with
      | None => Raise KeyError
      | Some stats =>
          view <- generate_dashboard data_points stats live_data ;;
          Ok (data_points, stats, view)
      end
  end.

End Feed.

(** ** The dashboard script: smoothing and the valuation model *)

Local Open Scope Q_scope.

(** A number of the script: a rational or [NaN]. *)
Inductive number : Type :=
| Num (q : Q)
| NaN.

(** The inner loop of [computeSMA]: [n] iterations from index [j].  Every
    [j] it reads is inside [data]. *)
Fixpoint sum_from (data : list Q) (j : nat) (n : nat) (sum : Q) : Q :=
  match n with
  | O => sum
  | S n' => sum_from data (S j) n' (sum + nth j data 0)
  end.

(** The entry that [computeSMA] pushes at index [i].  With [window] equal to
    0 the inner loop does not run and the entry is 0/0. *)
Definition sma_entry (data : list Q) (window : Z) (i : nat) : option number :=
  if (Z.of_nat i <? window - 1)%Z then None
  else
    let sum := sum_from data (Z.to_nat (Z.of_nat i - window + 1))
                        (Z.to_nat window) 0 in
    Some (if (window =? 0)%Z then NaN else Num (sum / inject_Z window)).

(** The outer loop of [computeSMA]: [n] iterations from index [i]. *)
Fixpoint sma_loop (data : list Q) (window : Z) (i : nat) (n : nat)
    (sma : list (option number)) : list (option number) :=
  match n with
  | O => sma
  | S n' => sma_loop data window (S i) n' (sma ++ [sma_entry data window i])
  end.

Definition computeSMA (data : list Q) (window : Z) : list (option number) :=
  sma_loop data window O (List.length data) [].

(** [!a || !b || a <= 0 || b <= 0] on rationals. *)
Definition rejected (a b : Q) : bool :=
  Qeq_bool a 0 || Qeq_bool b 0 || Qleb a 0 || Qleb b 0.

(** The same test on script numbers: [NaN] is falsy and compares false. *)
Definition is_falsy (x : number) : bool :=
  match x with Num q => Qeq_bool q 0 | NaN => true end.

Definition le_zero (x : number) : bool :=
  match x with Num q => Qleb q 0 | NaN => false end.

Definition rejected_input (a b : number) : bool :=
  is_falsy a || is_falsy b || le_zero a || le_zero b.

(** The implied value that [updateValueChart] pushes for one yield. *)
Definition implied_value (CURRENT_GILT rent propYield passThrough : Q) (y : Q)
    : option Q :=
  let giltDelta := y - CURRENT_GILT in
  let adjustedYield := propYield + giltDelta * passThrough in
  if Qleb adjustedYield 0 then None
  else Some (rent / (adjustedYield / 100)).

(** The inner loop of the value average: [(sum, count)] after [n] iterations
    from index [j]. *)
Fixpoint partial_sum (impliedValues : list (option Q)) (j : nat) (n : nat)
    (acc : Q * Z) : Q * Z :=
  match n with
  | O => acc
  | S n' =>
      partial_sum impliedValues (S j) n'
        (match nth j impliedValues None with
         | Some v => (fst acc + v, (snd acc + 1)%Z)
         | None => acc
         end)
  end.

Definition value_sma_entry (impliedValues : list (option Q)) (i : nat)
    : option Q :=
  if (i <? 29)%nat then None
  else
    let '(sum, count) := partial_sum impliedValues (i - 29) 30 (0, 0%Z) in
    if (0 <? count)%Z then Some (sum / inject_Z count) else None.

Fixpoint value_sma_loop (impliedValues : list (option Q)) (i : nat) (n : nat)
    (out : list (option Q)) : list (option Q) :=
  match n with
  | O => out
  | S n' =>
      value_sma_loop impliedValues (S i) n'
        (out ++ [value_sma_entry impliedValues i])
  end.

(** [updateValueChart]: [None] where the chart is hidden, otherwise the two
    data sets [impliedValues] and [valueSMA30]. *)
Definition updateValueChart (yields : list Q) (CURRENT_GILT : Q)
    (rent propYield passThrough : Q)
    : option (list (option Q) * list (option Q)) :=
  if rejected rent propYield then None
  else
    let impliedValues :=
      map (implied_value CURRENT_GILT rent propYield passThrough) yields in
    let valueSMA30 :=
      value_sma_loop impliedValues O (List.length impliedValues) [] in
    Some (impliedValues, valueSMA30).

Inductive InputMode : Type := ModeYield | ModePrice.

(** The change cell of a scenario row. *)
Inductive ChangeCell : Type :=
| Dash
| Positive (change changePct : Q)
| Negative (change changePct : Q).

Record ScenarioRow : Type := mkRow {
  deltaBps : Z;
  newPropYield : Q;
  newValue : Q;
  change : Q;
  changePct : Q;
  isCurrent : bool;
  changeCell : ChangeCell
}.

Definition scenarios : list Z := [-75; -50; -25; 0; 25; 50; 75]%Z.

(** The callback of [scenarios.forEach]: the rows it appends. *)
Definition scenario_row (rent propYield passThrough baseValue : Q) (deltaBps : Z)
    : list ScenarioRow :=
  let effectiveShift := inject_Z deltaBps * passThrough in
  let newPropYield := propYield + effectiveShift / 100 in
  if Qleb newPropYield 0 then []
  else
    let newValue := rent / (newPropYield / 100) in
    let change := newValue - baseValue in
    let changePct := (change / baseValue) * 100 in
    let isCurrent := (deltaBps =? 0)%Z in
    [ {| deltaBps := deltaBps;
         newPropYield := newPropYield;
         newValue := newValue;
         change := change;
         changePct := changePct;
         isCurrent := isCurrent;
         changeCell :=
           if isCurrent then Dash
           else if Qltb 0 change then Positive change changePct
           else Negative change changePct |} ].

(** What [recalculate] shows: the derived yield line, the content panel
    (yield, base value, scenario rows) or the placeholder, and the chart. *)
Record Calculator : Type := mkCalc {
  calcDerived : option Q;
  content : option (Q * Q * list ScenarioRow);
  valueChart : option (list (option Q) * list (option Q))
}.

Definition recalculate (yields : list Q) (CURRENT_GILT : Q)
    (inputMode : InputMode) (rentInput priceInput yieldInput : number)
    (passThroughInput : Z) : Calculator :=
  let rent := rentInput in
  let passThrough := inject_Z passThroughInput / 100 in
  let hidden :=
    {| calcDerived := None; content := None;
       valueChart := updateValueChart yields CURRENT_GILT 0 0 0 |} in
  let propYield_derived :=
    match inputMode with
    | ModePrice =>
        let price := priceInput in
        if rejected_input rent price then None
        else
          match rent, price with
          | Num r, Num p => Some (Num ((r / p) * 100), Some ((r / p) * 100))
          | _, _ => None
          end
    | ModeYield => Some (yieldInput, None)
    end in
  match propYield_derived with
  | None => hidden
  | Some (propYield, derived) =>
      if rejected_input rent propYield then
        {| calcDerived := derived; content := None;
           valueChart := updateValueChart yields CURRENT_GILT 0 0 0 |}
      else
        match rent, propYield with
        | Num rent, Num propYield =>
            let baseValue := rent / (propYield / 100) in
            {| calcDerived := derived;
               content :=
                 Some (propYield, baseValue,
                       flat_map (scenario_row rent propYield passThrough baseValue)
                                scenarios);
               valueChart :=
                 updateValueChart yields CURRENT_GILT rent propYield passThrough |}
        | _, _ => hidden
        end
  end.

Local Close Scope Q_scope.

(** ** Vocabulary of the statements *)

(** Absolute number of days between an observation and a target. *)
Definition day_distance (target_date : datetime) (d : Observation) : Z :=
  Z.abs (toordinal (date d) - target_date).

(** Ascending by date, equal dates allowed. *)
Definition ascending (l : Series) : Prop :=
  StronglySorted (fun a b => date_leb (date a) (date b) = true) l.

(** Ascending by date with no date repeated. *)
Definition strictly_ascending (l : Series) : Prop :=
  StronglySorted (fun a b => date_ltb (date a) (date b) = true) l.

(** Sum and arithmetic mean of a list of numbers. *)
Definition total (l : list Q) : Q := fold_right Qplus 0%Q l.

Definition mean (l : list Q) : Q :=
  (total l / inject_Z (Z.of_nat (List.length l)))%Q.

(** The [w] consecutive entries of [l] that end at index [i]. *)
Definition trailing {A : Type} (w : nat) (i : nat) (l : list A) : list A :=
  firstn w (skipn (S i - w) l).

(** The entries of a list with gaps that are present, in order. *)
Fixpoint present (l : list (option Q)) : list Q :=
  match l with
  | [] => []
  | Some v :: r => v :: present r
  | None :: r => present r
  end.

(** The yield of the scenario [deltaBps] under pass-through [T]. *)
Definition scenario_yield (Y T : Q) (deltaBps : Z) : Q :=
  (Y + (inject_Z deltaBps * T) / 100)%Q.

(** The spread lies in the inclusive band. *)
Definition in_band (s : Q) : Prop := (SPREAD_MIN <= s /\ s <= SPREAD_MAX)%Q.

(** Chronological order of calendar dates. *)
Definition date_lt (a b : Date) : Prop :=
  year a < year b \/
  (year a = year b /\
   (month a < month b \/ (month a = month b /\ day a < day b))).


Section FeedVocabulary.

Variable py_strptime : string -> string -> option Date.
Variable py_float : string -> option Q.


End FeedVocabulary.

(** ** Sample inputs *)


(** The feed of the specification's parsing scenario. *)
Definition scenario_feed : list (list string) :=
  [ ["DATE"; "IUDMNZC"];
    ["01 Jan 2024"; "4.00"];
    ["02 Jan 2024"; "4.10"] ]%string.

(** A feed with a preamble, blank rows and rows that are malformed in each
    way. *)
Definition ragged_feed : list (list string) :=
  [ ["Bank of England"];
    [];
    ["  "; ""];
    ["Date "; " Series iudmnzc "];
    ["02 Jan 2024"; "4.10"];
    ["2024-01-01"; " 4.0 "];
    ["yesterday"; "4.1"];
    ["2024-01-03"];
    ["2024-01-03"; "n/a"];
    [""; "4.3"];
    ["31/12/2023"; "3.95"] ]%string.


(** The series and statistics of the reconciliation scenarios. *)
Definition sample_series : Series :=
  [ mkObs (mkDate 2024 1 1) 4.40; mkObs (mkDate 2024 1 2) 4.50 ].

Definition sample_stats : Stats :=
  {| current_yield := 4.50;
     current_date := mkDate 2024 1 2;
     previous_yield := 4.40;
     daily_change := 0.10;
     high_12m := 4.50;
     low_12m := 4.40;
     high_date := mkDate 2024 1 2;
     low_date := mkDate 2024 1 1;
     week_change := Some 0.10%Q;
     month_change := Some 0.10%Q;
     ytd_change := Some 0.10%Q;
     data_points_count := 2 |}.

Definition sample_quote (y : Q) : LiveQuote :=
  {| live_yield := Some y;
     last_time := Some "2024-01-02T09:22:08.000+0000"%string |}.

(** ** The summary callout of the page *)

Definition PROPERTY_LENDING_SPREAD_BPS : Q := 175.

(** What [generate_dashboard] works out for the summary callout. *)
Record Callout : Type := mkCallout {
  implied_borrowing : Q;
  yield_direction : string;
  direction_impact : string;
  valuation_impact : string;
  month_bps : Q;
  month_ago_yield : Q;
  borrowing_verb : string
}.

(** What the callout section of [generate_dashboard] comes to. *)
Inductive CalloutOutcome : Type :=
| CalloutOverflowError
| CalloutTypeError
| CalloutShown (c : Callout).

(** The callout section of [generate_dashboard], from the series, the
    headline [current_yield] and the statistics.  The date 90 days before
    the current date is computed first (for [yield_3m_ago], which the page
    does not use), and the subtraction raises [OverflowError] below
    [datetime.min].  [stats.get("month_change", 0)] is the stored month
    change, which may be [None]; comparing [None] with 0 raises
    [TypeError]. *)
Definition summary_callout (data_points : Series) (current_yield : Q)
    (stats : Stats) : CalloutOutcome :=
  match sub_days (toordinal (current_date stats)) 90 with
  | Raise _ => CalloutOverflowError
  | Ok target =>
      let yield_3m_ago := find_nearest_value data_points target in
      match month_change stats with
      | None => CalloutTypeError
      | Some month_change =>
          let yield_direction :=
            if Qltb month_change 0 then "fallen"%string else "risen"%string in
          let fallen := String.eqb yield_direction "fallen" in
          CalloutShown {|
            implied_borrowing :=
              (current_yield + PROPERTY_LENDING_SPREAD_BPS / 100)%Q;
            yield_direction := yield_direction;
            direction_impact :=
              if fallen then "reducing"%string else "increasing"%string;
            valuation_impact :=
              if fallen then "upward"%string else "downward"%string;
            month_bps := (Qabs month_change * 100)%Q;
            month_ago_yield := (current_yield - month_change)%Q;
            borrowing_verb :=
              if Qltb month_change 0 then "reducing"%string else "increasing"%string
          |}
      end
  end.

(** ** The trend line of the page *)




(** ** Reading the calculator's fields *)

(** A character that [/[^0-9.]/g] keeps. *)
Definition is_digit_or_dot (c : ascii) : bool :=
  match digit_of c with
  | Some _ => true
  | None => Ascii.eqb c "."
  end.

Fixpoint keep_chars (keep : ascii -> bool) (s : string) : string :=
  match s with
  | EmptyString => EmptyString
  | String c r => if keep c then String c (keep_chars keep r) else keep_chars keep r
  end.

(** [parseFloat] on a text of digits and dots: the longest prefix that is a
    decimal literal, [NaN] when there is none. *)
Definition parseFloat_digits (s : string) : number :=
  let '(ip, ni, r) := read_digits s 0 O in
  let '(fp, nf) :=
    match r with
    | String "." r' => let '(fp, nf, _) := read_digits r' 0 O in (fp, nf)
    | _ => (0%Z, O)
    end in
  if (0 <? ni + nf)%nat
  then Num (inject_Z ip + inject_Z fp / inject_Z (10 ^ Z.of_nat nf))%Q
  else NaN.

(** [parseNumber]. *)
Definition parseNumber (str : string) : number :=
  parseFloat_digits (keep_chars is_digit_or_dot str).

(** ** The page cache of the local server *)

Definition CACHE_TTL : Q := 300.

(** The dictionary [cache] of [serve_dashboard]. *)
Record Cache : Type := mkCache {
  cache_html : option string;
  cache_time : Q
}.

(** A request as the handler meets it: the path, the clock, and what a
    refresh (fetch, generate, read the page back) gives at that moment if it
    is run: the page, or [None] when it raises. *)
Record Request : Type := mkRequest {
  req_path : string;
  req_now : Q;
  req_refresh : option string
}.

Inductive Response : Type :=
| NoContent
| ServerError
| Page (body : string).

(** [Handler.do_GET]: the response, the cache afterwards, and whether the
    refresh was run.  The refresh is run when nothing is cached or the cached
    page is older than [CACHE_TTL]; when it raises, the cache is left alone
    and the old page, if any, is sent. *)
Definition do_GET (cache : Cache) (req : Request) : Response * Cache * bool :=
  if negb (String.eqb (req_path req) "/" || String.eqb (req_path req) "/index.html")
  then (NoContent, cache, false)
  else
    match cache_html cache with
    | None =>
        match req_refresh req with
        | Some page =>
            (Page page, {| cache_html := Some page; cache_time := req_now req |}, true)
        | None => (ServerError, cache, true)
        end
    | Some old =>
        if Qltb CACHE_TTL (req_now req - cache_time cache) then
          match req_refresh req with
          | Some page =>
              (Page page, {| cache_html := Some page; cache_time := req_now req |},
               true)
          | None => (Page old, cache, true)
          end
        else (Page old, cache, false)
    end.

(** The server over a sequence of requests: the responses in order and the
    cache at the end. *)
Fixpoint serve (cache : Cache) (reqs : list Request) : list Response * Cache :=
  match reqs with
  | [] => ([], cache)
  | req :: rest =>
      let '(resp, cache', _) := do_GET cache req in
      let '(resps, final) := serve cache' rest in
      (resp :: resps, final)
  end.

(** ** Display of dates *)

(** The English abbreviated month names as [strftime("%b")] prints them. *)
Definition MONTH_NAMES : list string :=
  ["Jan"; "Feb"; "Mar"; "Apr"; "May"; "Jun";
   "Jul"; "Aug"; "Sep"; "Oct"; "Nov"; "Dec"]%string.

(** [dt.strftime("%d %b %Y")]: day on two digits, month name, year on four. *)
Definition strftime_display (d : Date) : string :=
  pad2 (day d)
    (String " " (nth (Z.to_nat (month d - 1)) MONTH_NAMES EmptyString
                 ++ String " " (pad4 (year d) EmptyString))).

(** [format_date_display], with [datetime.strptime] as the executable
    [strptime]: the display text of an ISO date, and the text itself when it
    is not one. *)
Definition format_date_display (date_str : string) : string :=
  match strptime date_str "%Y-%m-%d" with
  | Some dt => strftime_display dt
  | None => date_str
  end.

(** A time stamp of the live quote: the ISO date, [T], and the rest. *)
Definition iso_stamp (d : Date) (rest : string) : string :=
  pad4 (year d)
    (String "-" (pad2 (month d) (String "-" (pad2 (day d) (String "T" rest))))).

(** The cells of a row as the header test sees them. *)
Definition upper_row (row : list string) : list string :=
  map (fun cell => upper (strip cell)) row.

(** A row that the header test does not accept: no cell is [DATE], or no
    cell contains the series code. *)
Definition not_header (row : list string) : Prop :=
  index_of "DATE"%string (upper_row row) = None \/
  find_code O (upper_row row) = None.

(** A row of blank cells only. *)
Definition blank_row (row : list string) : Prop :=
  forallb (fun cell => is_empty (strip cell)) row = true.

Section RowVocabulary.

Variable py_strptime : string -> string -> option Date.
Variable py_float : string -> option Q.


End RowVocabulary.

(** The statistics that [compute_stats] gives for the sample series. *)
Definition sample_series_stats : Stats :=
  Eval vm_compute in
    match compute_stats sample_series with
    | Ok (Some stats) => stats
    | _ => sample_stats
    end.

(** * Properties *)

(** ** Nearest-date lookup *)

Section Nearest.

Variable target_date : datetime.

Let dist := day_distance target_date.
Let step := nearest_step target_date.

(** Scanning on from a current best either keeps it, when nothing later is
    strictly nearer, or ends on the first strictly nearest later element. *)
Lemma nearest_fold_inv (l : Series) :
  forall (best : Q) (bd : Z),
    (fold_left step l (Some best, Some bd) = (Some best, Some bd) /\
     forall e, In e l -> bd <= dist e)
    \/
    (exists i d,
        nth_error l i = Some d /\
        fold_left step l (Some best, Some bd) = (Some (yield d), Some (dist d)) /\
        dist d < bd /\
        (forall e, In e l -> dist d <= dist e) /\
        (forall j e, nth_error l j = Some e -> (j < i)%nat -> dist d < dist e)).
Proof.
  induction l as [|x l IH]; intros best bd.
  - left. split; [reflexivity | intros e []].
  - cbn [fold_left]. unfold step at 2 4. unfold nearest_step. cbn [snd].
    fold (day_distance target_date x). fold dist.
    destruct (Z.ltb_spec (dist x) bd) as [Hlt|Hge].
    + destruct (IH (yield x) (dist x)) as [[Hk Hall]|(i & d & Hi & Hf & Hd & Hall & Hfirst)].
      * right. exists O, x. cbn [nth_error]. repeat split; auto.
        -- intros e [<-|He]; [lia | auto].
        -- intros j e _ Hj. lia.
      * right. exists (S i), d. cbn [nth_error]. repeat split; auto; try lia.
        -- intros e [<-|He]; [lia | auto].
        -- intros [|j] e Hj Hlt'; cbn in Hj.
           ++ injection Hj as <-. exact Hd.
           ++ apply (Hfirst j e Hj). lia.
    + destruct (IH best bd) as [[Hk Hall]|(i & d & Hi & Hf & Hd & Hall & Hfirst)].
      * left. split; [exact Hk|]. intros e [<-|He]; [lia | auto].
      * right. exists (S i), d. cbn [nth_error]. repeat split; auto.
        -- intros e [<-|He]; [lia | auto].
        -- intros [|j] e Hj Hlt'; cbn in Hj.
           ++ injection Hj as <-. lia.
           ++ apply (Hfirst j e Hj). lia.
Qed.

(** On a non-empty series the lookup ends on the first element at minimal
    distance. *)
Lemma find_nearest_value_spec (data : Series) :
  data <> [] ->
  exists i d,
    nth_error data i = Some d /\
    find_nearest_value data target_date = Some (yield d) /\
    (forall e, In e data -> dist d <= dist e) /\
    (forall j e, nth_error data j = Some e -> (j < i)%nat -> dist d < dist e).
Proof.
  destruct data as [|x l]; [congruence|]. intros _.
  unfold find_nearest_value. cbn [fold_left]. unfold nearest_step at 2. cbn [snd].
  fold (day_distance target_date x). fold dist. fold step.
  destruct (nearest_fold_inv l (yield x) (dist x))
    as [[Hk Hall]|(i & d & Hi & Hf & Hd & Hall & Hfirst)].
  - exists O, x. rewrite Hk. cbn. repeat split; auto.
    + intros e [<-|He]; [lia | auto].
    + intros j e _ Hj. lia.
  - exists (S i), d. rewrite Hf. cbn [nth_error fst]. repeat split; auto.
    + intros e [<-|He]; [lia | auto].
    + intros [|j] e Hj Hlt'; cbn in Hj.
      * injection Hj as <-. exact Hd.
      * apply (Hfirst j e Hj). lia.
Qed.

End Nearest.

Lemma date_compare_refl (a : Date) : date_compare a a = Eq.
Proof. unfold date_compare. now rewrite !Z.compare_refl. Qed.

Lemma date_leb_refl (a : Date) : date_leb a a = true.
Proof. unfold date_leb. now rewrite date_compare_refl. Qed.

(** In an ascending series an earlier position holds an earlier or equal
    date. *)
Lemma ascending_nth (l : Series) :
  ascending l ->
  forall i j a b,
    nth_error l i = Some a -> nth_error l j = Some b -> (i < j)%nat ->
    date_leb (date a) (date b) = true.
Proof.
  induction 1 as [|x l Hs IH Hx]; intros i j a b Hi Hj Hlt.
  - destruct i; discriminate.
  - destruct j as [|j]; [lia|]. cbn in Hj. destruct i as [|i]; cbn in Hi.
    + injection Hi as <-. rewrite Forall_forall in Hx.
      apply Hx. eapply nth_error_In; eassumption.
    + eapply IH; eauto. lia.
Qed.

(** C4. For every non-empty series and every target date,
    [find_nearest_value] returns the value of an observation at minimal
    absolute day-difference from the target, and of the first such
    observation in iteration order: every observation before it is strictly
    farther.  When the series is ascending that observation has the earliest
    date among those at the minimum. *)
Theorem find_nearest_value_first_minimum (data : Series) (target_date : datetime) :
  data <> [] ->
  exists i d,
    nth_error data i = Some d /\
    find_nearest_value data target_date = Some (yield d) /\
    (forall e, In e data ->
       day_distance target_date d <= day_distance target_date e) /\
    (forall j e, nth_error data j = Some e -> (j < i)%nat ->
       day_distance target_date d < day_distance target_date e) /\
    (ascending data ->
     forall e, In e data ->
       day_distance target_date e = day_distance target_date d ->
       date_leb (date d) (date e) = true).
Proof.
  intros Hne.
  destruct (find_nearest_value_spec target_date data Hne)
    as (i & d & Hi & Hf & Hmin & Hfirst).
  exists i, d. repeat split; auto.
  intros Hasc e He Heq.
  destruct (In_nth_error _ _ He) as [j Hj].
  destruct (Nat.lt_trichotomy j i) as [Hlt|[->|Hgt]].
  - specialize (Hfirst j e Hj Hlt). lia.
  - rewrite Hi in Hj. injection Hj as <-. apply date_leb_refl.
  - eapply ascending_nth; eauto.
Qed.

(** A run of C4: the target 2024-01-05 lies midway between two observations
    and the earlier one is returned. *)
Lemma find_nearest_value_first_minimum_witness :
  let data := [ mkObs (mkDate 2024 1 3) 4.10; mkObs (mkDate 2024 1 7) 4.30 ] in
  let target := toordinal (mkDate 2024 1 5) in
  data <> [] /\
  exists i d,
    nth_error data i = Some d /\
    find_nearest_value data target = Some (yield d) /\
    (forall e, In e data -> day_distance target d <= day_distance target e) /\
    (forall j e, nth_error data j = Some e -> (j < i)%nat ->
       day_distance target d < day_distance target e) /\
    (ascending data ->
     forall e, In e data ->
       day_distance target e = day_distance target d ->
       date_leb (date d) (date e) = true).
Proof.
  intros data target. split.
  - discriminate.
  - apply (find_nearest_value_first_minimum data target). discriminate.
Defined.

Example find_nearest_value_tie :
  find_nearest_value
    [ mkObs (mkDate 2024 1 3) 4.10; mkObs (mkDate 2024 1 7) 4.30 ]
    (toordinal (mkDate 2024 1 5)) = Some 4.10%Q.
Proof. reflexivity. Qed.

(** ** Smoothing *)

Lemma skipn_cons_nth {A : Type} (d : A) (l : list A) :
  forall j, (j < List.length l)%nat -> skipn j l = nth j l d :: skipn (S j) l.
Proof.
  induction l as [|x l IH]; intros [|j] H; cbn in *; try lia; auto.
  apply IH. lia.
Qed.

Lemma nth_error_map_seq {A : Type} (f : nat -> A) (n i : nat) :
  (i < n)%nat -> nth_error (map f (seq 0 n)) i = Some (f i).
Proof.
  intros H. rewrite nth_error_map, nth_error_seq.
  destruct (Nat.ltb_spec i n); [reflexivity | lia].
Qed.

(** The inner loop adds the [n] entries from index [j] to the running sum. *)
Lemma sum_from_total (data : list Q) :
  forall n j sum,
    (j + n <= List.length data)%nat ->
    (sum_from data j n sum == sum + total (firstn n (skipn j data)))%Q.
Proof.
  induction n as [|n IH]; intros j sum H; cbn [sum_from].
  - cbn. ring.
  - rewrite IH by lia.
    rewrite (skipn_cons_nth 0%Q data j) by lia.
    cbn [firstn total fold_right]. fold (total (firstn n (skipn (S j) data))). ring.
Qed.

(** The outer loop pushes one entry per index, in order. *)
Lemma sma_loop_map (data : list Q) (window : Z) :
  forall n i sma,
    sma_loop data window i n sma = sma ++ map (sma_entry data window) (seq i n).
Proof.
  induction n as [|n IH]; intros i sma; cbn [sma_loop seq map].
  - now rewrite app_nil_r.
  - rewrite IH, <- app_assoc. reflexivity.
Qed.

Lemma computeSMA_map (data : list Q) (window : Z) :
  computeSMA data window =
  map (sma_entry data window) (seq 0 (List.length data)).
Proof. unfold computeSMA. now rewrite sma_loop_map. Qed.

(** C7. For every sequence of numbers and every window size W >= 1, the
    output of [computeSMA] has the length of the input; every entry at an
    index below W-1 is null; and every entry at an index i >= W-1 is the
    arithmetic mean of the W input values at indices i-W+1 to i. *)
Theorem computeSMA_trailing_mean (data : list Q) (W : Z) :
  1 <= W ->
  List.length (computeSMA data W) = List.length data /\
  (forall i, (i < List.length data)%nat -> Z.of_nat i < W - 1 ->
     nth_error (computeSMA data W) i = Some None) /\
  (forall i, (i < List.length data)%nat -> W - 1 <= Z.of_nat i ->
     List.length (trailing (Z.to_nat W) i data) = Z.to_nat W /\
     exists m,
       nth_error (computeSMA data W) i = Some (Some (Num m)) /\
       (m == mean (trailing (Z.to_nat W) i data))%Q).
Proof.
  intros HW. rewrite computeSMA_map. split; [|split].
  - now rewrite length_map, length_seq.
  - intros i Hi Hlt. rewrite nth_error_map_seq by exact Hi.
    unfold sma_entry. destruct (Z.ltb_spec (Z.of_nat i) (W - 1)); [reflexivity | lia].
  - intros i Hi Hge.
    assert (Hlen : List.length (trailing (Z.to_nat W) i data) = Z.to_nat W).
    { unfold trailing. rewrite length_firstn, length_skipn. lia. }
    split; [exact Hlen|].
    rewrite nth_error_map_seq by exact Hi. unfold sma_entry.
    destruct (Z.ltb_spec (Z.of_nat i) (W - 1)); [lia|].
    destruct (Z.eqb_spec W 0); [lia|].
    eexists. split; [reflexivity|].
    unfold mean. rewrite Hlen, Z2Nat.id by lia.
    rewrite sum_from_total by lia.
    replace (Z.to_nat (Z.of_nat i - W + 1)) with (S i - Z.to_nat W)%nat by lia.
    unfold trailing. rewrite Qplus_0_l. reflexivity.
Qed.

(** A run of C7 at window 2. *)
Lemma computeSMA_trailing_mean_witness :
  let data := [4.00; 4.10; 4.30]%Q in
  1 <= 2 /\
  List.length (computeSMA data 2) = List.length data /\
  (forall i, (i < List.length data)%nat -> Z.of_nat i < 2 - 1 ->
     nth_error (computeSMA data 2) i = Some None) /\
  (forall i, (i < List.length data)%nat -> 2 - 1 <= Z.of_nat i ->
     List.length (trailing (Z.to_nat 2) i data) = Z.to_nat 2 /\
     exists m,
       nth_error (computeSMA data 2) i = Some (Some (Num m)) /\
       (m == mean (trailing (Z.to_nat 2) i data))%Q).
Proof.
  intros data. split.
  - lia.
  - apply (computeSMA_trailing_mean data 2). lia.
Defined.

Example computeSMA_run :
  computeSMA [4; 6; 11]%Q 2 = [None; Some (Num (10 / 2)); Some (Num (17 / 2))]%Q.
Proof. reflexivity. Qed.

(** ** Valuation model: the value chart *)

Local Open Scope Q_scope.

Lemma Qleb_true (x y : Q) : Qleb x y = true <-> x <= y.
Proof. apply Qle_bool_iff. Qed.

Lemma Qleb_false (x y : Q) : Qleb x y = false <-> y < x.
Proof.
  unfold Qleb. split; intros H.
  - apply Qnot_le_lt. intros Hle. apply Qle_bool_iff in Hle. congruence.
  - destruct (Qle_bool x y) eqn:E; [|reflexivity].
    apply Qle_bool_iff in E. exfalso. exact (Qlt_not_le _ _ H E).
Qed.

Lemma Qeq_bool_false_pos (x : Q) : 0 < x -> Qeq_bool x 0 = false.
Proof.
  intros H. destruct (Qeq_bool x 0) eqn:E; [|reflexivity].
  apply Qeq_bool_iff in E. rewrite E in H. exfalso. exact (Qlt_irrefl _ H).
Qed.

Lemma rejected_false (a b : Q) : 0 < a -> 0 < b -> rejected a b = false.
Proof.
  intros Ha Hb. unfold rejected.
  rewrite !Qeq_bool_false_pos by assumption.
  rewrite (proj2 (Qleb_false a 0) Ha), (proj2 (Qleb_false b 0) Hb). reflexivity.
Qed.

(** The inner loop of the value average adds up, and counts, the entries of
    its window that are present. *)
Lemma partial_sum_present (iv : list (option Q)) :
  forall n j acc,
    (j + n <= List.length iv)%nat ->
    fst (partial_sum iv j n acc)
      == fst acc + total (present (firstn n (skipn j iv))) /\
    snd (partial_sum iv j n acc)
      = (snd acc + Z.of_nat (List.length (present (firstn n (skipn j iv)))))%Z.
Proof.
  induction n as [|n IH]; intros j acc H; cbn [partial_sum].
  - cbn. split; [ring | lia].
  - rewrite (skipn_cons_nth None iv j) by lia. cbn [firstn].
    destruct (IH (S j)
                (match nth j iv None with
                 | Some v => (fst acc + v, (snd acc + 1)%Z)
                 | None => acc
                 end)) as [Hs Hc]; [lia|].
    rewrite Hs, Hc. destruct (nth j iv None) as [v|]; cbn [present fst snd].
    + cbn [total fold_right List.length].
      fold (total (present (firstn n (skipn (S j) iv)))). split; [ring | lia].
    + split; reflexivity.
Qed.


(** The smoothed entry at an index from 29 on: the mean of what is present
    in the trailing window of 30, or absent when nothing is. *)
Lemma value_sma_entry_spec (iv : list (option Q)) (i : nat) :
  (i < List.length iv)%nat -> (29 <= i)%nat ->
  let window := present (trailing 30 i iv) in
  (window = [] -> value_sma_entry iv i = None) /\
  (window <> [] ->
   exists m, value_sma_entry iv i = Some m /\ m == mean window).
Proof.
  intros Hi H29 window. unfold value_sma_entry.
  destruct (Nat.ltb_spec i 29); [lia|].
  destruct (partial_sum_present iv 30 (i - 29) (0, 0%Z)) as [Hs Hc]; [lia|].
  destruct (partial_sum iv (i - 29) 30 (0, 0%Z)) as [sum count].
  cbn [fst snd] in Hs, Hc.
  assert (Hw : present (firstn 30 (skipn (i - 29) iv)) = window).
  { unfold window, trailing. now replace (S i - 30)%nat with (i - 29)%nat by lia. }
  rewrite Hw in Hs, Hc. split.
  - intros Hnil. rewrite Hnil in Hc. cbn in Hc. subst count. reflexivity.
  - intros Hne.
    assert (0 < List.length window)%nat.
    { destruct window; [congruence | cbn; lia]. }
    destruct (Z.ltb_spec 0 count); [|lia].
    eexists. split; [reflexivity|].
    unfold mean. rewrite Hs, Hc, Qplus_0_l. reflexivity.
Qed.


Local Close Scope Q_scope.


(** A gap in the projection, and the partial-window average around it. *)
Example implied_value_gap :
  implied_value 4.50 250000 1 1 3 = None /\
  (forall v, implied_value 4.50 250000 5.5 0.5 5.00 = Some v ->
             (v == 250000 / 0.0575)%Q).
Proof.
  split; [reflexivity|]. intros v H. injection H as <-. reflexivity.
Qed.

(** ** Valuation model: base value and scenarios *)

Local Open Scope Q_scope.

Lemma rejected_input_false (a b : Q) :
  0 < a -> 0 < b -> rejected_input (Num a) (Num b) = false.
Proof. intros Ha Hb. exact (rejected_false a b Ha Hb). Qed.

(** The callback appends nothing when the scenario yield is not positive and
    one row otherwise. *)
Lemma scenario_row_cases (R Y T V : Q) (d : Z) :
  (scenario_yield Y T d <= 0 /\ scenario_row R Y T V d = [])
  \/
  (0 < scenario_yield Y T d /\
   exists row,
     scenario_row R Y T V d = [row] /\
     deltaBps row = d /\
     newPropYield row = scenario_yield Y T d /\
     newValue row = R / (scenario_yield Y T d / 100) /\
     change row = newValue row - V /\
     changePct row = (change row / V) * 100 /\
     isCurrent row = (d =? 0)%Z /\
     (d = 0%Z -> changeCell row = Dash)).
Proof.
  unfold scenario_row. fold (scenario_yield Y T d).
  destruct (Qleb (scenario_yield Y T d) 0) eqn:E.
  - left. split; [now apply Qleb_true | reflexivity].
  - right. split; [now apply Qleb_false|].
    eexists. split; [reflexivity|]. cbn.
    repeat split. intros ->. reflexivity.
Qed.

Lemma scenario_rows_deltas (R Y T V : Q) (l : list Z) :
  map deltaBps (flat_map (scenario_row R Y T V) l)
  = filter (fun d => negb (Qleb (scenario_yield Y T d) 0)) l.
Proof.
  induction l as [|d l IH]; [reflexivity|].
  cbn [flat_map filter]. rewrite map_app, IH.
  destruct (scenario_row_cases R Y T V d) as [[Hle ->]|(Hlt & row & -> & Hd & _)].
  - now rewrite (proj2 (Qleb_true _ _) Hle).
  - rewrite (proj2 (Qleb_false _ _) Hlt). cbn. now rewrite Hd.
Qed.

Lemma scenario_yield_zero (Y T : Q) : scenario_yield Y T 0 == Y.
Proof. unfold scenario_yield. field. Qed.

(** C5. For rent R > 0 and yield Y > 0, with pass-through T (the slider
    value over 100), [recalculate] shows the base value V = R / (Y / 100) and
    one row per delta of -75, -50, -25, 0, 25, 50, 75 basis points, in that
    order, except that the row of a delta is omitted if and only if
    new_yield = Y + (delta * T) / 100 is not positive.  A row that is shown
    has new_value = R / (new_yield / 100), value_delta = new_value - V and
    value_delta_pct = 100 * value_delta / V.  The row of delta 0 is always
    shown and its change cell is the dash. *)
Theorem recalculate_scenarios (yields : list Q) (CURRENT_GILT R Y : Q)
    (priceInput : number) (pt : Z) :
  0 < R -> 0 < Y ->
  let T := inject_Z pt / 100 in
  let V := R / (Y / 100) in
  exists rows,
    content (recalculate yields CURRENT_GILT ModeYield (Num R) priceInput (Num Y) pt)
      = Some (Y, V, rows) /\
    map deltaBps rows
      = filter (fun d => negb (Qleb (scenario_yield Y T d) 0)) scenarios /\
    (forall d, In d scenarios ->
       (scenario_yield Y T d <= 0 <->
        ~ exists row, In row rows /\ deltaBps row = d)) /\
    (forall row, In row rows ->
       let new_yield := scenario_yield Y T (deltaBps row) in
       0 < new_yield /\
       newPropYield row == new_yield /\
       newValue row == R / (new_yield / 100) /\
       change row == newValue row - V /\
       changePct row == 100 * change row / V) /\
    (exists row, In row rows /\ deltaBps row = 0%Z /\ changeCell row = Dash).
Proof.
  intros HR HY T V.
  exists (flat_map (scenario_row R Y T V) scenarios).
  assert (Hdeltas := scenario_rows_deltas R Y T V scenarios).
  split; [|split; [exact Hdeltas|split; [|split]]].
  - unfold recalculate. rewrite rejected_input_false by assumption. reflexivity.
  - intros d Hd. split.
    + intros Hle (row & Hin & Hrow).
      assert (Hm : In d (map deltaBps (flat_map (scenario_row R Y T V) scenarios))).
      { rewrite <- Hrow. now apply in_map. }
      rewrite Hdeltas in Hm. apply filter_In in Hm. destruct Hm as [_ Hm].
      rewrite (proj2 (Qleb_true _ _) Hle) in Hm. discriminate.
    + intros Hno. destruct (Qlt_le_dec 0 (scenario_yield Y T d)) as [Hlt|Hle]; [|exact Hle].
      exfalso. apply Hno.
      assert (Hm : In d (map deltaBps (flat_map (scenario_row R Y T V) scenarios))).
      { rewrite Hdeltas. apply filter_In. split; [exact Hd|].
        now rewrite (proj2 (Qleb_false _ _) Hlt). }
      apply in_map_iff in Hm. destruct Hm as (row & Hrow & Hin). now exists row.
  - intros row Hin. apply in_flat_map in Hin. destruct Hin as (d & Hd & Hin).
    destruct (scenario_row_cases R Y T V d)
      as [[_ Hnil]|(Hlt & row' & Hone & Hdb & Hny & Hnv & Hch & Hpct & _)].
    + rewrite Hnil in Hin. destruct Hin.
    + rewrite Hone in Hin. destruct Hin as [<-|[]].
      rewrite Hdb. repeat split.
      * exact Hlt.
      * now rewrite Hny.
      * now rewrite Hnv.
      * now rewrite Hch.
      * rewrite Hpct. unfold Qdiv. ring.
  - destruct (scenario_row_cases R Y T V 0)
      as [[Hle _]|(_ & row & Hone & Hdb & _ & _ & _ & _ & _ & Hdash)].
    + rewrite scenario_yield_zero in Hle. exfalso. exact (Qlt_not_le _ _ HY Hle).
    + exists row. repeat split; auto.
      apply in_flat_map. exists 0%Z. split; [cbn; tauto|].
      rewrite Hone. now left.
Qed.

(** A run of C5: the scenario of the specification, rent 250000 at 5.50 per
    cent with half pass-through. *)
Lemma recalculate_scenarios_witness :
  (0 < 250000) /\ (0 < 5.50) /\
  let T := inject_Z 50 / 100 in
  let V := 250000 / (5.50 / 100) in
  exists rows,
    content (recalculate [] 4.50 ModeYield (Num 250000) NaN (Num 5.50) 50)
      = Some (5.50, V, rows) /\
    map deltaBps rows
      = filter (fun d => negb (Qleb (scenario_yield 5.50 T d) 0)) scenarios /\
    (forall d, In d scenarios ->
       (scenario_yield 5.50 T d <= 0 <->
        ~ exists row, In row rows /\ deltaBps row = d)) /\
    (forall row, In row rows ->
       let new_yield := scenario_yield 5.50 T (deltaBps row) in
       0 < new_yield /\
       newPropYield row == new_yield /\
       newValue row == 250000 / (new_yield / 100) /\
       change row == newValue row - V /\
       changePct row == 100 * change row / V) /\
    (exists row, In row rows /\ deltaBps row = 0%Z /\ changeCell row = Dash).
Proof.
  split; [reflexivity|]. split; [reflexivity|].
  apply (recalculate_scenarios [] 4.50 250000 5.50 NaN 50); reflexivity.
Defined.

Local Close Scope Q_scope.

Local Open Scope Q_scope.

(** The scenario of the specification: rent 250000 at 5.50 per cent has base
    value 250000 / 0.055; at +50 basis points with half pass-through the yield
    is 5.75, the value 250000 / 0.0575 and the change -197,628.46 to the
    penny. *)
Example scenario_row_plus_50 :
  exists row,
    scenario_row 250000 5.50 0.5 (250000 / (5.50 / 100)) 50 = [row] /\
    250000 / (5.50 / 100) == 250000 / 0.055 /\
    newPropYield row == 5.75 /\
    newValue row == 250000 / 0.0575 /\
    -197628.465 < change row < -197628.455.
Proof.
  eexists. split; [reflexivity|]. cbn. repeat split.
Qed.

(** C8. For rent R > 0 the base implied value that [recalculate] shows is
    V = R / (Y / 100).  In yield mode Y is the yield entered (Y > 0).  In
    price mode Y is derived from the guide price P > 0 as Y = 100 * R / P; it
    is the yield shown as derived, the yield of the base value, of every
    scenario row and of the value chart.  Rent 250000 at price 4500000 gives
    5.5556 per cent to four digits. *)
Theorem recalculate_base_value (yields : list Q) (CURRENT_GILT R Y P : Q)
    (otherInput : number) (pt : Z) :
  0 < R -> 0 < Y -> 0 < P ->
  let T := inject_Z pt / 100 in
  (content (recalculate yields CURRENT_GILT ModeYield (Num R) otherInput (Num Y) pt)
   = Some (Y, R / (Y / 100),
           flat_map (scenario_row R Y T (R / (Y / 100))) scenarios)) /\
  (exists Yd,
     Yd == 100 * R / P /\
     recalculate yields CURRENT_GILT ModePrice (Num R) (Num P) otherInput pt
     = {| calcDerived := Some Yd;
          content :=
            Some (Yd, R / (Yd / 100),
                  flat_map (scenario_row R Yd T (R / (Yd / 100))) scenarios);
          valueChart := updateValueChart yields CURRENT_GILT R Yd T |}) /\
  (forall Yd,
     calcDerived
       (recalculate yields CURRENT_GILT ModePrice (Num 250000) (Num 4500000)
                    otherInput pt) = Some Yd ->
     round4 Yd == 5.5556).
Proof.
  intros HR HY HP T. split; [|split].
  - unfold recalculate. rewrite rejected_input_false by assumption. reflexivity.
  - exists ((R / P) * 100). split; [unfold Qdiv; ring|].
    assert (HYd : 0 < (R / P) * 100).
    { apply Qmult_lt_0_compat; [|reflexivity].
      apply Qmult_lt_0_compat; [exact HR | now apply Qinv_lt_0_compat]. }
    unfold recalculate. rewrite (rejected_input_false R P HR HP).
    rewrite (rejected_input_false R _ HR HYd). reflexivity.
  - intros Yd H. cbn in H. injection H as <-. reflexivity.
Qed.

(** A run of C8: the price-mode scenario of the specification. *)
Lemma recalculate_base_value_witness :
  (0 < 250000) /\ (0 < 5.50) /\ (0 < 4500000) /\
  let T := inject_Z 50 / 100 in
  (content (recalculate [] 4.50 ModeYield (Num 250000) NaN (Num 5.50) 50)
   = Some (5.50, 250000 / (5.50 / 100),
           flat_map (scenario_row 250000 5.50 T (250000 / (5.50 / 100))) scenarios)) /\
  (exists Yd,
     Yd == 100 * 250000 / 4500000 /\
     recalculate [] 4.50 ModePrice (Num 250000) (Num 4500000) NaN 50
     = {| calcDerived := Some Yd;
          content :=
            Some (Yd, 250000 / (Yd / 100),
                  flat_map (scenario_row 250000 Yd T (250000 / (Yd / 100))) scenarios);
          valueChart := updateValueChart [] 4.50 250000 Yd T |}) /\
  (forall Yd,
     calcDerived
       (recalculate [] 4.50 ModePrice (Num 250000) (Num 4500000) NaN 50) = Some Yd ->
     round4 Yd == 5.5556).
Proof.
  split; [reflexivity|]. split; [reflexivity|]. split; [reflexivity|].
  apply (recalculate_base_value [] 4.50 250000 5.50 4500000 NaN 50); reflexivity.
Defined.

Local Close Scope Q_scope.

(** ** Rounding *)

Local Open Scope Q_scope.

Lemma round_half_even_inject (n : Z) : round_half_even (inject_Z n) = n.
Proof.
  unfold round_half_even. rewrite Qfloor_Z.
  assert (H : inject_Z n - inject_Z n == 0) by ring.
  rewrite (Qcompare_comp _ _ H (1 # 2) (1 # 2) (Qeq_refl _)). reflexivity.
Qed.

Lemma round_half_even_comp (x y : Q) :
  x == y -> round_half_even x = round_half_even y.
Proof.
  intros H. unfold round_half_even. rewrite (Qfloor_comp _ _ H).
  assert (H' : x - inject_Z (Qfloor y) == y - inject_Z (Qfloor y)) by now rewrite H.
  now rewrite (Qcompare_comp _ _ H' (1 # 2) (1 # 2) (Qeq_refl _)).
Qed.

Lemma four_digits_scaled (n : Z) : Qmake n 10000 * 10000 == inject_Z n.
Proof. unfold Qeq, Qmult, inject_Z. cbn. lia. Qed.

(** [round(x, 4)] has four fractional digits, and leaves such a value as it
    is. *)
Lemma round4_four_digits (x : Q) : four_digits (round4 x).
Proof. eexists. unfold round4. reflexivity. Qed.

Lemma round4_fixed (x : Q) : four_digits x -> round4 x == x.
Proof.
  intros [n Hn]. unfold round4.
  assert (H : x * 10000 == inject_Z n) by (rewrite Hn; apply four_digits_scaled).
  rewrite (round_half_even_comp _ _ H), round_half_even_inject. now rewrite Hn.
Qed.

Lemma four_digits_plus (x y : Q) : four_digits x -> four_digits y -> four_digits (x + y).
Proof.
  intros [n Hn] [m Hm]. exists (n + m)%Z. rewrite Hn, Hm.
  unfold Qeq, Qplus. cbn. lia.
Qed.

Local Close Scope Q_scope.

(** ** Source reconciler *)

Section Reconciler.

Variable py_strptime : string -> string -> option Date.

Local Open Scope Q_scope.

(** The date of the quote is always found: a stamp that is missing or does
    not parse falls back to the latest date of the series. *)
Lemma quote_date_total (stats : Stats) (live : LiveQuote) :
  exists cnbc_date, quote_date py_strptime stats live = Ok cnbc_date.
Proof.
  unfold quote_date. destruct (last_time live) as [stamp|]; cbn.
  - destruct (py_strptime _ _); cbn; eauto.
  - eauto.
Qed.

Lemma in_band_test (s : Q) :
  Qleb SPREAD_MIN s && Qleb s SPREAD_MAX = true <-> in_band s.
Proof.
  unfold in_band. rewrite andb_true_iff, !Qleb_true. tauto.
Qed.

(** The two outcomes of the section when the quote carries a yield. *)
Lemma generate_dashboard_live (data : Series) (stats : Stats) (live : LiveQuote)
    (ly : Q) (cnbc_date : datetime) :
  live_yield live = Some ly ->
  quote_date py_strptime stats live = Ok cnbc_date ->
  let matched := match find_nearest_value data cnbc_date with
                 | Some v => v
                 | None => current_yield stats
                 end in
  let s := round4 (ly - matched) in
  (in_band s /\
   generate_dashboard py_strptime data stats (Some live)
   = Ok {| dates_json := map date data;
           yields_json := map (fun d => round4 (yield d + s)) data;
           spread := s;
           spread_ok := true;
           headline_value := ly;
           warning := None;
           subtitle_spread := Some s |})
  \/
  (~ in_band s /\
   generate_dashboard py_strptime data stats (Some live)
   = Ok {| dates_json := map date data;
           yields_json := map yield data;
           spread := 0;
           spread_ok := false;
           headline_value := ly;
           warning := Some s;
           subtitle_spread := None |}).
Proof.
  intros Hly Hqd matched s. unfold generate_dashboard. rewrite Hly, Hqd.
  cbn [bind]. fold matched. fold s.
  destruct (Qleb SPREAD_MIN s && Qleb s SPREAD_MAX) eqn:E.
  - left. split; [now apply in_band_test | reflexivity].
  - right. split; [|reflexivity].
    intros H. apply in_band_test in H. congruence.
Qed.

End Reconciler.

Local Open Scope Q_scope.


Local Close Scope Q_scope.

Local Open Scope Q_scope.

Lemma sample_series_four_digits :
  Forall (fun d => four_digits (yield d)) sample_series.
Proof.
  repeat constructor; cbn.
  - exists 44000%Z. reflexivity.
  - exists 45000%Z. reflexivity.
Qed.


(** The scenarios of the specification: the quote 5.10 matched against 4.50
    gives the spread 0.60, inside the band, and every value is raised by 0.60;
    the quote 4.60 gives 0.10, outside the band, and the series is left as it
    is, with a warning. *)
Example generate_dashboard_in_band :
  generate_dashboard strptime sample_series sample_stats (Some (sample_quote 5.10))
  = Ok {| dates_json := [mkDate 2024 1 1; mkDate 2024 1 2];
          yields_json := [5.0000; 5.1000];
          spread := 0.6000;
          spread_ok := true;
          headline_value := 5.10;
          warning := None;
          subtitle_spread := Some 0.6000 |}.
Proof. vm_compute. reflexivity. Qed.

Example generate_dashboard_out_of_band :
  generate_dashboard strptime sample_series sample_stats (Some (sample_quote 4.60))
  = Ok {| dates_json := [mkDate 2024 1 1; mkDate 2024 1 2];
          yields_json := [4.40; 4.50];
          spread := 0;
          spread_ok := false;
          headline_value := 4.60;
          warning := Some 0.1000;
          subtitle_spread := None |}.
Proof. vm_compute. reflexivity. Qed.

(** C10. Whenever the section ends with the spread not applied, the spread
    it leaves is exactly 0, the chart subtitle carries no spread and the chart
    values are the series' values.  That happens in two ways only: there is no
    live yield, and then there is no warning; or the spread computed from the
    quote lies outside the band 0.40 to 1.00, and then that computed spread is
    carried by the warning alone. *)
Theorem spread_zero_when_not_applied
    (py_strptime : string -> string -> option Date)
    (data : Series) (stats : Stats) (live_data : option LiveQuote)
    (view : ReconciledView) :
  generate_dashboard py_strptime data stats live_data = Ok view ->
  spread_ok view = false ->
  spread view = 0 /\
  subtitle_spread view = None /\
  yields_json view = map yield data /\
  ((warning view = None /\
    (live_data = None \/
     exists live, live_data = Some live /\ live_yield live = None))
   \/
   (exists live ly cnbc_date,
      live_data = Some live /\ live_yield live = Some ly /\
      quote_date py_strptime stats live = Ok cnbc_date /\
      let matched := match find_nearest_value data cnbc_date with
                     | Some v => v
                     | None => current_yield stats
                     end in
      let s := round4 (ly - matched) in
      ~ (0.40 <= s /\ s <= 1.00) /\
      warning view = Some s)).
Proof.
  intros Hgen Hoff.
  destruct live_data as [live|].
  - destruct (live_yield live) as [ly|] eqn:Hly.
    + destruct (quote_date_total py_strptime stats live) as [cd Hcd].
      destruct (generate_dashboard_live py_strptime data stats live ly cd Hly Hcd)
        as [[Hin Heq]|[Hout Heq]];
        rewrite Heq in Hgen; injection Hgen as <-; cbn in *; [discriminate|].
      repeat split. right. exists live, ly, cd. repeat split; auto.
    + unfold generate_dashboard in Hgen. rewrite Hly in Hgen.
      injection Hgen as <-. cbn. repeat split. left. split; [reflexivity|].
      right. now exists live.
  - cbn in Hgen. injection Hgen as <-. cbn. repeat split. left. split; [reflexivity|].
    now left.
Qed.

(** A run of C10: the quote 4.60 gives the spread 0.10, outside the band. *)
Lemma spread_zero_when_not_applied_witness :
  let view :=
    {| dates_json := [mkDate 2024 1 1; mkDate 2024 1 2];
       yields_json := [4.40; 4.50];
       spread := 0;
       spread_ok := false;
       headline_value := 4.60;
       warning := Some 0.1000;
       subtitle_spread := None |} in
  generate_dashboard strptime sample_series sample_stats (Some (sample_quote 4.60))
    = Ok view /\
  spread_ok view = false /\
  spread view = 0 /\
  subtitle_spread view = None /\
  yields_json view = map yield sample_series /\
  ((warning view = None /\
    (Some (sample_quote 4.60) = None \/
     exists live, Some (sample_quote 4.60) = Some live /\ live_yield live = None))
   \/
   (exists live ly cnbc_date,
      Some (sample_quote 4.60) = Some live /\ live_yield live = Some ly /\
      quote_date strptime sample_stats live = Ok cnbc_date /\
      let matched := match find_nearest_value sample_series cnbc_date with
                     | Some v => v
                     | None => current_yield sample_stats
                     end in
      let s := round4 (ly - matched) in
      ~ (0.40 <= s /\ s <= 1.00) /\
      warning view = Some s)).
Proof.
  intros view. split; [vm_compute; reflexivity|]. split; [reflexivity|].
  apply (spread_zero_when_not_applied strptime sample_series sample_stats
           (Some (sample_quote 4.60)) view).
  - vm_compute. reflexivity.
  - reflexivity.
Defined.

Local Close Scope Q_scope.

(** ** Order of dates and the sort *)

Lemma date_compare_spec (a b : Date) :
  CompareSpec (a = b) (date_lt a b) (date_lt b a) (date_compare a b).
Proof.
  destruct a as [ya ma da], b as [yb mb db]. unfold date_compare, date_lt. cbn.
  destruct (Z.compare_spec ya yb); [|constructor; lia|constructor; lia].
  destruct (Z.compare_spec ma mb); [|constructor; lia|constructor; lia].
  destruct (Z.compare_spec da db); constructor; try lia. congruence.
Qed.

Lemma date_lt_irrefl (a : Date) : ~ date_lt a a.
Proof. unfold date_lt. lia. Qed.

Lemma date_lt_trans (a b c : Date) : date_lt a b -> date_lt b c -> date_lt a c.
Proof. unfold date_lt. lia. Qed.

Lemma date_ltb_lt (a b : Date) : date_ltb a b = true <-> date_lt a b.
Proof.
  unfold date_ltb. destruct (date_compare_spec a b) as [->|H|H]; split; intros H';
    try discriminate; try reflexivity; try assumption.
  - exfalso. exact (date_lt_irrefl _ H').
  - exfalso. exact (date_lt_irrefl _ (date_lt_trans _ _ _ H H')).
Qed.

Lemma date_leb_le (a b : Date) : date_leb a b = true <-> a = b \/ date_lt a b.
Proof.
  unfold date_leb. destruct (date_compare_spec a b) as [->|H|H]; split; intros H';
    try discriminate; try reflexivity; auto.
  exfalso. destruct H' as [->|H'].
  - exact (date_lt_irrefl _ H).
  - exact (date_lt_irrefl _ (date_lt_trans _ _ _ H H')).
Qed.




Lemma date_ltb_leb (a b : Date) : date_ltb a b = true -> date_leb a b = true.
Proof. rewrite date_ltb_lt, date_leb_le. auto. Qed.












(** ** Feed parser *)

Section Parser.

Variable py_strptime : string -> string -> option Date.
Variable py_float : string -> option Q.

Lemma row_get_cases (row : list string) (col : option nat) :
  (exists cell, row_get row col = Ok cell) \/ row_get row col = Raise IndexError.
Proof.
  unfold row_get. destruct col as [i|]; [|now right].
  destruct (nth_error row i); cbn; eauto.
Qed.

(** The formats are tried in the order of the list and the first that parses
    gives the date. *)
Lemma try_formats_first (date_str : string) (fmts : list string) (d : Date) :
  try_formats py_strptime date_str fmts = Ok d <->
  exists before fmt after,
    fmts = before ++ fmt :: after /\
    (forall f, In f before -> py_strptime date_str f = None) /\
    py_strptime date_str fmt = Some d.
Proof.
  induction fmts as [|fmt r IH]; cbn.
  - split; [discriminate|]. intros (b & f & a & H & _). destruct b; discriminate.
  - destruct (py_strptime date_str fmt) as [d'|] eqn:E.
    + split.
      * intros H. injection H as <-. exists [], fmt, r. repeat split; auto.
        intros f [].
      * intros (b & f & a & H & Hb & Hf). destruct b as [|f' b]; cbn in H.
        -- injection H as <- <-. congruence.
        -- injection H as <- ->. rewrite (Hb fmt (or_introl eq_refl)) in E.
           discriminate.
    + rewrite IH. split.
      * intros (b & f & a & -> & Hb & Hf). exists (fmt :: b), f, a.
        repeat split; auto. intros f' [<-|Hin]; auto.
      * intros (b & f & a & H & Hb & Hf). destruct b as [|f' b]; cbn in H.
        -- injection H as <- <-. congruence.
        -- injection H as <- ->. exists b, f, a. repeat split; auto.
           intros f' Hin. apply Hb. now right.
Qed.

Lemma try_formats_none (date_str : string) (fmts : list string) :
  (forall fmt, In fmt fmts -> py_strptime date_str fmt = None) ->
  try_formats py_strptime date_str fmts = Raise ValueError.
Proof.
  induction fmts as [|fmt r IH]; intros H; cbn; [reflexivity|].
  rewrite (H fmt (or_introl eq_refl)). apply IH. intros f Hf. apply H. now right.
Qed.

Lemma try_formats_cases (date_str : string) (fmts : list string) :
  (exists d, try_formats py_strptime date_str fmts = Ok d) \/
  try_formats py_strptime date_str fmts = Raise ValueError.
Proof.
  induction fmts as [|fmt r IH]; cbn; [now right|].
  destruct (py_strptime date_str fmt); eauto.
Qed.

(** The [try] block raises nothing but what its [except] clause catches. *)
Lemma parse_row_cases (st : ParserState) (row : list string) :
  (exists o, parse_row py_strptime py_float st row = Ok o) \/
  parse_row py_strptime py_float st row = Raise ValueError \/
  parse_row py_strptime py_float st row = Raise IndexError.
Proof.
  unfold parse_row.
  destruct (row_get_cases row (date_col st)) as [[dc ->]| ->]; cbn [bind]; [|auto].
  destruct (row_get_cases row (yield_col st)) as [[yc ->]| ->]; cbn [bind]; [|auto].
  destruct (is_empty (strip dc) || is_empty (strip yc)); [eauto|].
  unfold parse_boe_date.
  destruct (try_formats_cases (strip dc) formats) as [[d ->]| ->]; cbn [bind]; [|auto].
  destruct (py_float (strip yc)); cbn; eauto.
Qed.

(** No iteration of the row loop raises. *)
Lemma parse_step_total (st : ParserState) (row : list string) :
  exists st', parse_step py_strptime py_float st row = Ok st'.
Proof.
  unfold parse_step.
  destruct (forallb _ row); [eauto|].
  destruct (negb (header_found st)).
  - destruct (index_of _ _); eauto.
  -     destruct (parse_row_cases st row) as [[o ->]|[-> | ->]]; cbn; eauto.
    destruct o; eauto.
Qed.

Lemma parse_rows_total (rows : list (list string)) :
  forall st, exists st', parse_rows py_strptime py_float st rows = Ok st'.
Proof.
  induction rows as [|row r IH]; intros st; cbn; [eauto|].
  destruct (parse_step_total st row) as [st' H].
  rewrite H. cbn. apply IH.
Qed.

Lemma parse_rows_app (a b : list (list string)) :
  forall st,
    parse_rows py_strptime py_float st (a ++ b)
    = bind (parse_rows py_strptime py_float st a) (fun st' => parse_rows py_strptime py_float st' b).
Proof.
  induction a as [|row a IH]; intros st; cbn; [reflexivity|].
  destruct (parse_step py_strptime py_float st row) as [st'|e]; cbn; [apply IH | reflexivity].
Qed.





End Parser.

(** The feed of the parsing scenario gives the series of the specification,
    and the ragged feed keeps its three well-formed rows, sorted. *)
Example parse_boe_csv_scenario :
  parse_boe_csv strptime float_decimal scenario_feed
  = Ok [ mkObs (mkDate 2024 1 1) 4.0000; mkObs (mkDate 2024 1 2) 4.1000 ].
Proof. vm_compute. reflexivity. Qed.

Example parse_boe_csv_ragged :
  parse_boe_csv strptime float_decimal ragged_feed
  = Ok [ mkObs (mkDate 2023 12 31) 3.9500;
         mkObs (mkDate 2024 1 1) 4.0000;
         mkObs (mkDate 2024 1 2) 4.1000 ].
Proof. vm_compute. reflexivity. Qed.






(** ** Series statistics *)

Local Open Scope Q_scope.

(** What [compute_stats] stores for the three period changes: the rounded
    difference when the looked-up value is not zero, and [None] when it is
    zero. *)
Lemma compute_stats_changes (data : Series) (stats : Stats) :
  compute_stats data = Ok (Some stats) ->
  exists latest week_target month_target,
    data = removelast data ++ [latest] /\
    sub_days (toordinal (date latest)) 7 = Ok week_target /\
    sub_days (toordinal (date latest)) 30 = Ok month_target /\
    week_change stats
      = change_if (yield latest) (find_nearest_value data week_target) /\
    month_change stats
      = change_if (yield latest) (find_nearest_value data month_target) /\
    ytd_change stats
      = change_if (yield latest)
          (find_nearest_value data (toordinal (mkDate (year (date latest)) 1 1))).
Proof.
  destruct data as [|first others]; [discriminate|].
  unfold compute_stats.
  set (data := first :: others). set (latest := last data first).
  destruct (sub_days (toordinal (date latest)) 7) as [wt|] eqn:Ew; [|discriminate].
  destruct (sub_days (toordinal (date latest)) 30) as [mt|] eqn:Em; [|discriminate].
  cbn [bind].
  destruct (index_q _ _); [|discriminate].
  destruct (index_q _ _); [|discriminate].
  cbn [of_option bind]. intros H. injection H as <-. cbn.
  exists latest, wt, mt. repeat split; auto.
  apply app_removelast_last. discriminate.
Qed.

Lemma change_if_none (cur x : Q) :
  change_if cur (Some x) = None <-> x == 0.
Proof.
  unfold change_if, truthy. destruct (Qeq_bool x 0) eqn:E; cbn.
  - apply Qeq_bool_iff in E. tauto.
  - split; [discriminate|]. intros H. apply Qeq_bool_iff in H. congruence.
Qed.

Lemma change_if_some (cur x : Q) :
  ~ x == 0 -> change_if cur (Some x) = Some (round4 (cur - x)).
Proof.
  intros H. unfold change_if, truthy. destruct (Qeq_bool x 0) eqn:E; [|reflexivity].
  apply Qeq_bool_iff in E. contradiction.
Qed.

(** C3 at a series whose first value is zero.  The three lookups return the
    value 0 of 1 January, and [compute_stats] stores [None] for the week,
    month and year-to-date changes, where the claim has
    round(0.25 - 0, 4) = 0.25. *)
Theorem compute_stats_zero_lookup :
  let data := [ mkObs (mkDate 2024 1 1) 0; mkObs (mkDate 2024 1 8) 0.25 ] in
  let latest := toordinal (mkDate 2024 1 8) in
  find_nearest_value data (latest - 7)%Z = Some 0 /\
  find_nearest_value data (latest - 30)%Z = Some 0 /\
  find_nearest_value data (toordinal (mkDate 2024 1 1)) = Some 0 /\
  round4 (0.25 - 0) == 0.25 /\
  exists stats,
    compute_stats data = Ok (Some stats) /\
    week_change stats = None /\
    month_change stats = None /\
    ytd_change stats = None.
Proof.
  cbv zeta. repeat split.
  eexists. split; [vm_compute; reflexivity|]. repeat split.
Qed.

Local Close Scope Q_scope.

(** ** Dates and their ISO text *)

Local Open Scope string_scope.

Lemma digit_cases (k : Z) :
  0 <= k <= 9 ->
  k = 0 \/ k = 1 \/ k = 2 \/ k = 3 \/ k = 4 \/ k = 5 \/ k = 6 \/ k = 7 \/ k = 8 \/ k = 9.
Proof. lia. Qed.

Ltac digit_split k H :=
  destruct (digit_cases k H) as [->|[->|[->|[->|[->|[->|[->|[->|[->| ->]]]]]]]]].

Lemma digit_of_digit_char (k : Z) : 0 <= k <= 9 -> digit_of (digit_char k) = Some k.
Proof. intros H. digit_split k H; reflexivity. Qed.

Lemma upper_char_digit_char (k : Z) :
  0 <= k <= 9 -> upper_char (digit_char k) = digit_char k.
Proof. intros H. digit_split k H; reflexivity. Qed.

Lemma two_digit_bounds (n : Z) :
  0 <= n <= 99 -> 0 <= n / 10 <= 9 /\ 0 <= n mod 10 <= 9 /\ 10 * (n / 10) + n mod 10 = n.
Proof.
  intros H. pose proof (Z.div_mod n 10 ltac:(lia)).
  pose proof (Z.mod_pos_bound n 10 ltac:(lia)). lia.
Qed.

Lemma four_digit_bounds (n : Z) :
  0 <= n <= 9999 ->
  0 <= n / 100 <= 99 /\ 0 <= n mod 100 <= 99 /\ 100 * (n / 100) + n mod 100 = n.
Proof.
  intros H. pose proof (Z.div_mod n 100 ltac:(lia)).
  pose proof (Z.mod_pos_bound n 100 ltac:(lia)). lia.
Qed.

Section IsoMatch.

Variable rest : string -> fields -> option (string * fields).

Lemma match_year_pad4 (y : Z) (s : string) (f : fields) :
  0 <= y <= 9999 ->
  match_year rest (pad4 y s) f = rest s (set_year f y).
Proof.
  intros H. destruct (four_digit_bounds y H) as (Hh & Hl & Hy).
  destruct (two_digit_bounds _ Hh) as (Ha & Hb & Hab).
  destruct (two_digit_bounds _ Hl) as (Hc & Hd & Hcd).
  unfold match_year, pad4, pad2.
  rewrite !digit_of_digit_char by assumption.
  f_equal. f_equal. lia.
Qed.

End IsoMatch.

(** The month and the day of an ISO text, after the year. *)
Lemma iso_tail_parses (m dd : Z) (f : fields) :
  1 <= m <= 12 -> 1 <= dd <= 31 ->
  match_pattern [DLit "-"; DMonth; DLit "-"; DDay]
                (String "-" (pad2 m (String "-" (pad2 dd "")))) f
  = Some ("", set_day (set_month f m) dd).
Proof.
  intros Hm Hd.
  assert (Im : In m [1; 2; 3; 4; 5; 6; 7; 8; 9; 10; 11; 12]) by (cbn; lia).
  assert (Id : In dd [1; 2; 3; 4; 5; 6; 7; 8; 9; 10; 11; 12; 13; 14; 15; 16;
                      17; 18; 19; 20; 21; 22; 23; 24; 25; 26; 27; 28; 29; 30; 31])
    by (cbn; lia).
  destruct f as [[y0 m0] d0]. clear Hm Hd. cbn [In] in Im, Id.
  repeat (destruct Im as [<-|Im]; [|try contradiction]);
    repeat (destruct Id as [<-|Id]; [|try contradiction]);
    vm_compute; reflexivity.
Qed.

Lemma days_in_month_le (y m : Z) : days_in_month y m <= 31.
Proof.
  unfold days_in_month. destruct (_ && _); [lia|].
  unfold DAYS_IN_MONTH.
  destruct (Z.to_nat (m - 1)) as [|[|[|[|[|[|[|[|[|[|[|[|[|n]]]]]]]]]]]]]; cbn; lia.
Qed.

(** Parsing the ISO text of a valid date gives the date back. *)
Lemma strptime_strftime_iso (d : Date) :
  valid_date d = true -> strptime (strftime_iso d) "%Y-%m-%d" = Some d.
Proof.
  intros Hv. pose proof Hv as Hv'. unfold valid_date in Hv'.
  repeat (apply andb_true_iff in Hv'; destruct Hv' as [Hv' ?]).
  repeat match goal with H : (_ <=? _) = true |- _ => apply Z.leb_le in H end.
  apply Z.leb_le in Hv'. pose proof (days_in_month_le (year d) (month d)).
  unfold strptime. change (compile_format "%Y-%m-%d")
    with [DYear; DLit "-"; DMonth; DLit "-"; DDay].
  unfold strftime_iso.
  change (match_pattern [DYear; DLit "-"; DMonth; DLit "-"; DDay])
    with (match_year (match_pattern [DLit "-"; DMonth; DLit "-"; DDay])).
  rewrite match_year_pad4 by lia. rewrite iso_tail_parses by lia.
  destruct d as [y m dd]. cbn in *. now rewrite Hv.
Qed.

Local Close Scope string_scope.

(** Comparing digit characters is comparing digits, and comparing two texts
    that start with numbers printed on two digits is comparing the numbers,
    then the rest. *)
Lemma digit_char_compare (a b : Z) :
  0 <= a <= 9 -> 0 <= b <= 9 ->
  Ascii.compare (digit_char a) (digit_char b) = (a ?= b).
Proof. intros Ha Hb. digit_split a Ha; digit_split b Hb; reflexivity. Qed.

Lemma pad2_compare (x y : Z) (s t : string) :
  0 <= x <= 99 -> 0 <= y <= 99 ->
  String.compare (pad2 x s) (pad2 y t)
  = match x ?= y with Eq => String.compare s t | c => c end.
Proof.
  intros Hx Hy.
  destruct (two_digit_bounds x Hx) as (Ha & Hb & Hab).
  destruct (two_digit_bounds y Hy) as (Hc & Hd & Hcd).
  unfold pad2. cbn [String.compare].
  rewrite !digit_char_compare by assumption.
  destruct (Z.compare_spec (x / 10) (y / 10)) as [E|E|E].
  - destruct (Z.compare_spec (x mod 10) (y mod 10)) as [E'|E'|E'].
    + replace y with x by lia. now rewrite Z.compare_refl.
    + replace (x ?= y) with Lt; [reflexivity|]. symmetry. apply Z.compare_lt_iff. lia.
    + replace (x ?= y) with Gt; [reflexivity|]. symmetry. apply Z.compare_gt_iff. lia.
  - replace (x ?= y) with Lt; [reflexivity|]. symmetry. apply Z.compare_lt_iff. lia.
  - replace (x ?= y) with Gt; [reflexivity|]. symmetry. apply Z.compare_gt_iff. lia.
Qed.

Lemma pad4_compare (x y : Z) (s t : string) :
  0 <= x <= 9999 -> 0 <= y <= 9999 ->
  String.compare (pad4 x s) (pad4 y t)
  = match x ?= y with Eq => String.compare s t | c => c end.
Proof.
  intros Hx Hy.
  destruct (four_digit_bounds x Hx) as (Ha & Hb & Hab).
  destruct (four_digit_bounds y Hy) as (Hc & Hd & Hcd).
  unfold pad4. rewrite pad2_compare by assumption.
  destruct (Z.compare_spec (x / 100) (y / 100)) as [E|E|E].
  - rewrite pad2_compare by assumption.
    destruct (Z.compare_spec (x mod 100) (y mod 100)) as [E'|E'|E'].
    + replace y with x by lia. now rewrite Z.compare_refl.
    + replace (x ?= y) with Lt; [reflexivity|]. symmetry. apply Z.compare_lt_iff. lia.
    + replace (x ?= y) with Gt; [reflexivity|]. symmetry. apply Z.compare_gt_iff. lia.
  - replace (x ?= y) with Lt; [reflexivity|]. symmetry. apply Z.compare_lt_iff. lia.
  - replace (x ?= y) with Gt; [reflexivity|]. symmetry. apply Z.compare_gt_iff. lia.
Qed.

Lemma valid_date_bounds (d : Date) :
  valid_date d = true ->
  1 <= year d <= 9999 /\ 1 <= month d <= 12 /\ 1 <= day d <= 31.
Proof.
  intros Hv. unfold valid_date in Hv.
  repeat (apply andb_true_iff in Hv; destruct Hv as [Hv ?]).
  repeat match goal with H : (_ <=? _) = true |- _ => apply Z.leb_le in H end.
  apply Z.leb_le in Hv. pose proof (days_in_month_le (year d) (month d)). lia.
Qed.

(** The order of the ISO texts of two valid dates, character by character,
    is the order of the dates: sorting on the text is sorting on the date. *)
Lemma strftime_iso_compare (a b : Date) :
  valid_date a = true -> valid_date b = true ->
  String.compare (strftime_iso a) (strftime_iso b) = date_compare a b.
Proof.
  intros Ha Hb.
  destruct (valid_date_bounds a Ha) as (Hya & Hma & Hda).
  destruct (valid_date_bounds b Hb) as (Hyb & Hmb & Hdb).
  unfold strftime_iso, date_compare.
  rewrite pad4_compare by lia. destruct (year a ?= year b); try reflexivity.
  cbn [String.compare]. change (Ascii.compare "-" "-") with Eq. cbv iota.
  rewrite pad2_compare by lia. destruct (month a ?= month b); try reflexivity.
  cbn [String.compare]. change (Ascii.compare "-" "-") with Eq. cbv iota.
  rewrite pad2_compare by lia. destruct (day a ?= day b); reflexivity.
Qed.

(** A date that [strptime] returns is a valid calendar date. *)
Lemma strptime_valid (s fmt : string) (d : Date) :
  strptime s fmt = Some d -> valid_date d = true.
Proof.
  unfold strptime.
  destruct (match_pattern _ s _) as [[[|c r] [[y m] dd]]|]; try discriminate.
  destruct (valid_date (mkDate y m dd)) eqn:E; [|discriminate].
  intros H. injection H as <-. exact E.
Qed.

(** ** The pipeline on the scenarios of the specification *)

(** The parsing scenario: two observations, a daily change of 0.10. *)
Example compute_stats_scenario :
  exists stats,
    compute_stats [ mkObs (mkDate 2024 1 1) 4.0000; mkObs (mkDate 2024 1 2) 4.1000 ]
      = Ok (Some stats) /\
    current_yield stats = 4.1000%Q /\
    previous_yield stats = 4.0000%Q /\
    daily_change stats = 0.1000%Q /\
    data_points_count stats = 2%nat.
Proof. eexists. split; [vm_compute; reflexivity|]. repeat split. Qed.

(** A series of one observation: the daily change is 0 and every lookup
    gives that one value. *)
Example compute_stats_single :
  exists stats,
    compute_stats [ mkObs (mkDate 2024 3 15) 4.2500 ] = Ok (Some stats) /\
    daily_change stats = 0.0000%Q /\
    week_change stats = Some 0.0000%Q /\
    month_change stats = Some 0.0000%Q /\
    ytd_change stats = Some 0.0000%Q.
Proof. eexists. split; [vm_compute; reflexivity|]. repeat split. Qed.

(** From the feed to the view: the scenario feed with a quote of 4.70
    dated on its last day. *)
Example fetch_and_generate_scenario :
  exists stats view,
    fetch_and_generate strptime float_decimal scenario_feed
      (Some {| live_yield := Some 4.70%Q;
               last_time := Some "2024-01-02T16:30:00.000+0000"%string |})
    = Ok ([ mkObs (mkDate 2024 1 1) 4.0000; mkObs (mkDate 2024 1 2) 4.1000 ],
          stats, view) /\
    spread view = 0.6000%Q /\
    spread_ok view = true /\
    yields_json view = [4.6000; 4.7000]%Q /\
    headline_value view = 4.70%Q.
Proof. do 2 eexists. split; [vm_compute; reflexivity|]. repeat split. Qed.

(** * Further properties of the code *)

(** ** Statistics: what [compute_stats] stores *)

Local Open Scope Q_scope.

Lemma Qltb_true (x y : Q) : Qltb x y = true <-> x < y.
Proof.
  unfold Qltb. rewrite negb_true_iff. exact (Qleb_false y x).
Qed.

Lemma Qltb_false (x y : Q) : Qltb x y = false <-> y <= x.
Proof.
  unfold Qltb. rewrite negb_false_iff. exact (Qleb_true y x).
Qed.

(** [max] returns an element of the list that no element exceeds, and the
    first such element met. *)
Lemma py_max_spec (l : list Q) :
  forall x,
    In (py_max x l) (x :: l) /\
    (forall y, In y (x :: l) -> y <= py_max x l).
Proof.
  unfold py_max. induction l as [|z l IH]; intros x; cbn [fold_left].
  - split; [now left|]. intros y [<-|[]]. apply Qle_refl.
  - destruct (Qltb x z) eqn:E.
    + destruct (IH z) as [Hin Hge]. split.
      * destruct Hin as [Hin|Hin]; [right; left; exact Hin | right; right; exact Hin].
      * intros y [<-|Hy]; [|now apply Hge].
        apply Qltb_true in E. apply Qlt_le_weak.
        eapply Qlt_le_trans; [exact E|]. apply Hge. now left.
    + destruct (IH x) as [Hin Hge]. split.
      * destruct Hin as [Hin|Hin]; [left; exact Hin | right; right; exact Hin].
      * intros y [<-|[<-|Hy]].
        -- apply Hge. now left.
        -- apply Qltb_false in E. eapply Qle_trans; [exact E|]. apply Hge. now left.
        -- apply Hge. now right.
Qed.

Lemma py_min_spec (l : list Q) :
  forall x,
    In (py_min x l) (x :: l) /\
    (forall y, In y (x :: l) -> py_min x l <= y).
Proof.
  unfold py_min. induction l as [|z l IH]; intros x; cbn [fold_left].
  - split; [now left|]. intros y [<-|[]]. apply Qle_refl.
  - destruct (Qltb z x) eqn:E.
    + destruct (IH z) as [Hin Hge]. split.
      * destruct Hin as [Hin|Hin]; [right; left; exact Hin | right; right; exact Hin].
      * intros y [<-|Hy]; [|now apply Hge].
        apply Qltb_true in E. apply Qlt_le_weak.
        eapply Qle_lt_trans; [|exact E]. apply Hge. now left.
    + destruct (IH x) as [Hin Hge]. split.
      * destruct Hin as [Hin|Hin]; [left; exact Hin | right; right; exact Hin].
      * intros y [<-|[<-|Hy]].
        -- apply Hge. now left.
        -- apply Qltb_false in E. eapply Qle_trans; [|exact E]. apply Hge. now left.
        -- apply Hge. now right.
Qed.

(** [l.index(x)] is the first position that holds a number equal to [x]. *)
Lemma index_q_spec (x : Q) (l : list Q) (i : nat) :
  index_q x l = Some i ->
  (exists y, nth_error l i = Some y /\ y == x) /\
  (forall j y, (j < i)%nat -> nth_error l j = Some y -> ~ y == x).
Proof.
  revert i. induction l as [|z l IH]; intros i; cbn [index_q]; [discriminate|].
  destruct (Qeq_bool z x) eqn:E.
  - intros H. injection H as <-. split.
    + exists z. split; [reflexivity | now apply Qeq_bool_iff].
    + intros j y Hj. lia.
  - destruct (index_q x l) as [k|]; cbn; [|discriminate]. intros H. injection H as <-.
    destruct (IH k eq_refl) as [Hk Hfirst]. split; [exact Hk|].
    intros [|j] y Hj Hy; cbn in Hy.
    + injection Hy as <-. intros Heq. apply Qeq_bool_iff in Heq. congruence.
    + apply (Hfirst j y); [lia | exact Hy].
Qed.

Lemma index_q_found (x : Q) (l : list Q) : In x l -> index_q x l <> None.
Proof.
  induction l as [|z l IH]; intros H; [destruct H|]. cbn.
  destruct (Qeq_bool z x) eqn:E; [discriminate|].
  destruct H as [->|H].
  - rewrite (proj2 (Qeq_bool_iff x x) (Qeq_refl x)) in E. discriminate.
  - destruct (index_q x l); [discriminate | now apply IH].
Qed.

(** What a successful run of [compute_stats] has computed. *)
Lemma compute_stats_inv (first : Observation) (others : Series) (stats : Stats) :
  let data := first :: others in
  let latest := last data first in
  let hi := py_max (yield first) (map yield others) in
  let lo := py_min (yield first) (map yield others) in
  compute_stats data = Ok (Some stats) ->
  exists week_target month_target hi_idx lo_idx,
    sub_days (toordinal (date latest)) 7 = Ok week_target /\
    sub_days (toordinal (date latest)) 30 = Ok month_target /\
    index_q hi (map yield data) = Some hi_idx /\
    index_q lo (map yield data) = Some lo_idx /\
    current_yield stats = yield latest /\
    current_date stats = date latest /\
    previous_yield stats
      = yield (if (2 <=? List.length data)%nat
               then nth (List.length data - 2) data first else latest) /\
    daily_change stats
      = round4 (yield latest
                - yield (if (2 <=? List.length data)%nat
                         then nth (List.length data - 2) data first else latest)) /\
    high_12m stats = round4 hi /\
    low_12m stats = round4 lo /\
    high_date stats = date (nth hi_idx data first) /\
    low_date stats = date (nth lo_idx data first) /\
    data_points_count stats = List.length data.
Proof.
  intros data latest hi lo. subst data latest hi lo. unfold compute_stats. cbv zeta.
  destruct (sub_days _ 7) as [wt|]; cbn [bind]; [|discriminate].
  destruct (sub_days _ 30) as [mt|]; cbn [bind]; [|discriminate].
  destruct (index_q (py_max _ _) _) as [hi_idx|]; cbn [of_option bind]; [|discriminate].
  destruct (index_q (py_min _ _) _) as [lo_idx|]; cbn [of_option bind]; [|discriminate].
  intros H. injection H as <-. cbn [current_yield current_date previous_yield
    daily_change high_12m low_12m high_date low_date data_points_count].
  exists wt, mt, hi_idx, lo_idx. repeat split; reflexivity.
Qed.

Local Close Scope Q_scope.

Local Open Scope Q_scope.

Lemma In_yield_of (v : Q) (data : Series) :
  In v (map yield data) -> exists d, In d data /\ yield d = v.
Proof.
  intros H. apply in_map_iff in H. destruct H as (d & Hd & Hin). now exists d.
Qed.

(** X1. When [compute_stats] returns statistics for a series of values with
    four fractional digits, the stored low and high bracket every
    observation: low_12m <= value <= high_12m. *)
Theorem compute_stats_range (data : Series) (stats : Stats) :
  compute_stats data = Ok (Some stats) ->
  Forall (fun d => four_digits (yield d)) data ->
  forall d, In d data -> low_12m stats <= yield d /\ yield d <= high_12m stats.
Proof.
  destruct data as [|first others]; [discriminate|]. intros Hs H4 d Hd.
  destruct (compute_stats_inv first others stats Hs)
    as (_ & _ & _ & _ & _ & _ & _ & _ & _ & _ & _ & _ & Hhi & Hlo & _).
  destruct (py_max_spec (map yield others) (yield first)) as [Hin_hi Hge].
  destruct (py_min_spec (map yield others) (yield first)) as [Hin_lo Hle].
  change (yield first :: map yield others) with (map yield (first :: others)) in *.
  rewrite Forall_forall in H4.
  destruct (In_yield_of _ _ Hin_hi) as (dh & Hdh & Eh).
  destruct (In_yield_of _ _ Hin_lo) as (dl & Hdl & El).
  rewrite Hhi, Hlo, <- Eh, <- El.
  rewrite !round4_fixed by (apply H4; assumption).
  rewrite Eh, El. split; [apply Hle | apply Hge]; now apply in_map.
Qed.

Lemma compute_stats_range_witness :
  compute_stats sample_series = Ok (Some sample_series_stats) /\
  Forall (fun d => four_digits (yield d)) sample_series /\
  forall d, In d sample_series ->
    low_12m sample_series_stats <= yield d /\ yield d <= high_12m sample_series_stats.
Proof.
  split; [vm_compute; reflexivity|]. split; [exact sample_series_four_digits|].
  apply (compute_stats_range sample_series sample_series_stats).
  - vm_compute. reflexivity.
  - exact sample_series_four_digits.
Defined.

(** X2. The dates stored with the extrema are those of the first observation
    that attains them: [high_date] is the date of an observation whose value
    no observation exceeds and every earlier observation is strictly below,
    and [low_date] likewise for the minimum. *)
Theorem compute_stats_extremum_dates (data : Series) (stats : Stats) :
  compute_stats data = Ok (Some stats) ->
  (exists i d,
     nth_error data i = Some d /\ high_date stats = date d /\
     (forall e, In e data -> yield e <= yield d) /\
     (forall j e, (j < i)%nat -> nth_error data j = Some e -> yield e < yield d)) /\
  (exists i d,
     nth_error data i = Some d /\ low_date stats = date d /\
     (forall e, In e data -> yield d <= yield e) /\
     (forall j e, (j < i)%nat -> nth_error data j = Some e -> yield d < yield e)).
Proof.
  destruct data as [|first others]; [discriminate|]. intros Hs.
  destruct (compute_stats_inv first others stats Hs)
    as (_ & _ & hi_idx & lo_idx & _ & _ & Hhi & Hlo
        & _ & _ & _ & _ & _ & _ & Hhd & Hld & _).
  set (data := first :: others) in *.
  destruct (py_max_spec (map yield others) (yield first)) as [_ Hge].
  destruct (py_min_spec (map yield others) (yield first)) as [_ Hle].
  change (yield first :: map yield others) with (map yield data) in *.
  destruct (index_q_spec _ _ _ Hhi) as [(yh & Hyh & Eyh) Hfh].
  destruct (index_q_spec _ _ _ Hlo) as [(yl & Hyl & Eyl) Hfl].
  rewrite nth_error_map in Hyh, Hyl.
  destruct (nth_error data hi_idx) as [dh|] eqn:Hdh; [|discriminate].
  destruct (nth_error data lo_idx) as [dl|] eqn:Hdl; [|discriminate].
  cbn in Hyh, Hyl. injection Hyh as <-. injection Hyl as <-.
  split.
  - exists hi_idx, dh. split; [exact Hdh|].
    split; [rewrite Hhd; f_equal; now apply nth_error_nth|]. split.
    + intros e He. rewrite Eyh. apply Hge. now apply in_map.
    + intros j e Hj He.
      assert (Hle' : yield e <= yield dh)
        by (rewrite Eyh; apply Hge; apply in_map; eapply nth_error_In; eassumption).
      apply Qle_lteq in Hle'. destruct Hle' as [Hlt|Heq]; [exact Hlt|].
      exfalso. apply (Hfh j (yield e) Hj).
      * rewrite nth_error_map, He. reflexivity.
      * now rewrite Heq.
  - exists lo_idx, dl. split; [exact Hdl|].
    split; [rewrite Hld; f_equal; now apply nth_error_nth|]. split.
    + intros e He. rewrite Eyl. apply Hle. now apply in_map.
    + intros j e Hj He.
      assert (Hle' : yield dl <= yield e)
        by (rewrite Eyl; apply Hle; apply in_map; eapply nth_error_In; eassumption).
      apply Qle_lteq in Hle'. destruct Hle' as [Hlt|Heq]; [exact Hlt|].
      exfalso. apply (Hfl j (yield e) Hj).
      * rewrite nth_error_map, He. reflexivity.
      * rewrite <- Heq. exact Eyl.
Qed.

Lemma compute_stats_extremum_dates_witness :
  compute_stats sample_series = Ok (Some sample_series_stats) /\
  (exists i d,
     nth_error sample_series i = Some d /\ high_date sample_series_stats = date d /\
     (forall e, In e sample_series -> yield e <= yield d) /\
     (forall j e, (j < i)%nat -> nth_error sample_series j = Some e ->
        yield e < yield d)) /\
  (exists i d,
     nth_error sample_series i = Some d /\ low_date sample_series_stats = date d /\
     (forall e, In e sample_series -> yield d <= yield e) /\
     (forall j e, (j < i)%nat -> nth_error sample_series j = Some e ->
        yield d < yield e)).
Proof.
  split; [vm_compute; reflexivity|].
  apply (compute_stats_extremum_dates sample_series sample_series_stats).
  vm_compute. reflexivity.
Defined.

Local Close Scope Q_scope.

Local Open Scope Q_scope.

Lemma last_two {A : Type} (init : list A) (p c d : A) :
  last (init ++ [p; c]) d = c /\
  nth (List.length (init ++ [p; c]) - 2) (init ++ [p; c]) d = p /\
  (2 <=? List.length (init ++ [p; c]))%nat = true.
Proof.
  split; [|split].
  - replace (init ++ [p; c]) with ((init ++ [p]) ++ [c]) by now rewrite <- app_assoc.
    apply last_last.
  - rewrite length_app. cbn [List.length].
    replace (List.length init + 2 - 2)%nat with (List.length init) by lia.
    rewrite app_nth2, Nat.sub_diag by lia. reflexivity.
  - rewrite length_app. cbn [List.length]. apply Nat.leb_le. lia.
Qed.

Lemma round4_zero (x : Q) : x == 0 -> round4 x == 0.
Proof.
  intros H. rewrite round4_fixed; [exact H|]. exists 0%Z. now rewrite H.
Qed.

(** X3. In the statistics of a series, the current value and date are those
    of the last observation and the count is the length of the series.  With
    two observations or more the previous value is that of the second-to-last
    observation and the daily change is round(last - second-to-last, 4); with
    a single observation the previous value is the current one and the daily
    change is 0. *)
Theorem compute_stats_latest_previous (data : Series) (stats : Stats) :
  compute_stats data = Ok (Some stats) ->
  data_points_count stats = List.length data /\
  (forall init p c, data = init ++ [p; c] ->
     current_yield stats = yield c /\ current_date stats = date c /\
     previous_yield stats = yield p /\
     daily_change stats = round4 (yield c - yield p)) /\
  (forall c, data = [c] ->
     current_yield stats = yield c /\ current_date stats = date c /\
     previous_yield stats = yield c /\ daily_change stats == 0).
Proof.
  destruct data as [|first others]; [discriminate|]. intros Hs.
  destruct (compute_stats_inv first others stats Hs)
    as (_ & _ & _ & _ & _ & _ & _ & _ & Hc & Hd & Hp & Hdc & _ & _ & _ & _ & Hn).
  split; [exact Hn|]. split.
  - intros init p c E. rewrite E in Hc, Hd, Hp, Hdc.
    destruct (last_two init p c first) as (Hl & Hn2 & H2).
    rewrite H2, Hn2, Hl in *. auto.
  - intros c E. injection E as -> ->. cbn in Hc, Hd, Hp, Hdc.
    repeat split; auto. rewrite Hdc. apply round4_zero. ring.
Qed.

Lemma compute_stats_latest_previous_witness :
  compute_stats sample_series = Ok (Some sample_series_stats) /\
  data_points_count sample_series_stats = List.length sample_series /\
  (forall init p c, sample_series = init ++ [p; c] ->
     current_yield sample_series_stats = yield c /\
     current_date sample_series_stats = date c /\
     previous_yield sample_series_stats = yield p /\
     daily_change sample_series_stats = round4 (yield c - yield p)) /\
  (forall c, sample_series = [c] ->
     current_yield sample_series_stats = yield c /\
     current_date sample_series_stats = date c /\
     previous_yield sample_series_stats = yield c /\
     daily_change sample_series_stats == 0).
Proof.
  split; [vm_compute; reflexivity|].
  apply (compute_stats_latest_previous sample_series sample_series_stats).
  vm_compute. reflexivity.
Defined.

Lemma last_default {A : Type} (l : list A) (d d' : A) :
  l <> [] -> last l d = last l d'.
Proof.
  induction l as [|x [|y r] IH]; intros H; [congruence | reflexivity |].
  cbn [last] in *. apply IH. discriminate.
Qed.

(** X4. [compute_stats] returns the empty dictionary on the empty series.  On
    a non-empty series it returns statistics whenever the latest date is at
    least 30 days after [datetime.min] (ordinal 31 or more), and raises
    [OverflowError] when the latest date is within 30 days of
    [datetime.min]; it raises nothing else. *)
Theorem compute_stats_outcomes (data : Series) (d0 : Observation) :
  data <> [] ->
  let latest := toordinal (date (last data d0)) in
  compute_stats [] = Ok None /\
  ((31 <= latest <= MAXORDINAL)%Z ->
   exists stats, compute_stats data = Ok (Some stats)) /\
  ((latest <= 30)%Z -> compute_stats data = Raise OverflowError) /\
  (forall e, compute_stats data = Raise e -> e = OverflowError).
Proof.
  destruct data as [|first others]; [congruence|]. intros _ latest.
  assert (Hl : toordinal (date (last (first :: others) first)) = latest).
  { unfold latest. f_equal. f_equal. apply last_default. discriminate. }
  assert (Hhi : index_q (py_max (yield first) (map yield others))
                        (map yield (first :: others)) <> None).
  { apply index_q_found. apply (py_max_spec (map yield others) (yield first)). }
  assert (Hlo : index_q (py_min (yield first) (map yield others))
                        (map yield (first :: others)) <> None).
  { apply index_q_found. apply (py_min_spec (map yield others) (yield first)). }
  split; [reflexivity|].
  unfold compute_stats. cbv zeta. rewrite Hl. unfold sub_days. cbv zeta.
  destruct (index_q (py_max _ _) _) as [hi_idx|]; [|congruence].
  destruct (index_q (py_min _ _) _) as [lo_idx|]; [|congruence].
  unfold MAXORDINAL. split; [|split].
  - intros H.
    destruct (Z.leb_spec 1 (latest - 7)), (Z.leb_spec (latest - 7) 3652059); try lia.
    destruct (Z.leb_spec 1 (latest - 30)), (Z.leb_spec (latest - 30) 3652059); try lia.
    cbn. eauto.
  - intros H.
    destruct (Z.leb_spec 1 (latest - 7)), (Z.leb_spec (latest - 7) 3652059);
      cbn; try reflexivity.
    destruct (Z.leb_spec 1 (latest - 30)); [lia|]. reflexivity.
  - intros e.
    destruct ((1 <=? latest - 7)%Z && (latest - 7 <=? 3652059)%Z); cbn [bind];
      [|intros H; now injection H].
    destruct ((1 <=? latest - 30)%Z && (latest - 30 <=? 3652059)%Z); cbn;
      [discriminate | intros H; now injection H].
Qed.

Lemma compute_stats_outcomes_witness :
  let early := [ mkObs (mkDate 1 1 20) 4.10 ] in
  sample_series <> [] /\ early <> [] /\
  (31 <= toordinal (date (last sample_series (mkObs (mkDate 1 1 1) 0)))
      <= MAXORDINAL)%Z /\
  (toordinal (date (last early (mkObs (mkDate 1 1 1) 0))) <= 30)%Z /\
  (exists stats, compute_stats sample_series = Ok (Some stats)) /\
  compute_stats early = Raise OverflowError.
Proof.
  intros early.
  assert (H1 : sample_series <> []) by discriminate.
  assert (H2 : early <> []) by discriminate.
  split; [exact H1|]. split; [exact H2|].
  split; [vm_compute; split; discriminate|]. split; [vm_compute; discriminate|].
  split.
  - apply (compute_stats_outcomes sample_series (mkObs (mkDate 1 1 1) 0) H1).
    vm_compute. split; discriminate.
  - apply (compute_stats_outcomes early (mkObs (mkDate 1 1 1) 0) H2).
    vm_compute. discriminate.
Defined.

Local Close Scope Q_scope.

(** ** Day ordinals follow the calendar *)

Lemma is_leap_cases (y : Z) : is_leap y = true \/ is_leap y = false.
Proof. destruct (is_leap y); auto. Qed.

Lemma days_before_year_succ (y : Z) :
  days_before_year (y + 1)
  = days_before_year y + 365 + (if is_leap y then 1 else 0).
Proof.
  unfold days_before_year, is_leap. cbv zeta.
  replace (y + 1 - 1) with y by lia.
  destruct (Z.eqb_spec (y mod 4) 0), (Z.eqb_spec (y mod 100) 0),
    (Z.eqb_spec (y mod 400) 0); cbn [negb andb orb];
    Z.to_euclidean_division_equations; lia.
Qed.

Lemma days_before_year_mono (y : Z) (n : nat) :
  days_before_year y + 365 * Z.of_nat n <= days_before_year (y + Z.of_nat n).
Proof.
  induction n as [|n IH].
  - replace (y + Z.of_nat 0) with y by lia. lia.
  - replace (y + Z.of_nat (S n)) with (y + Z.of_nat n + 1) by lia.
    rewrite days_before_year_succ. destruct (is_leap (y + Z.of_nat n)); lia.
Qed.

Lemma month_cases (m : Z) :
  1 <= m <= 12 ->
  m = 1 \/ m = 2 \/ m = 3 \/ m = 4 \/ m = 5 \/ m = 6 \/
  m = 7 \/ m = 8 \/ m = 9 \/ m = 10 \/ m = 11 \/ m = 12.
Proof. lia. Qed.

Ltac month_split m H :=
  destruct (month_cases m H)
    as [->|[->|[->|[->|[->|[->|[->|[->|[->|[->|[->| ->]]]]]]]]]]].

(** Within a year: the days before a month and the days of that month are
    the days before the next month, and the year has 365 or 366 days. *)
Lemma days_before_month_next (y m : Z) :
  1 <= m <= 12 ->
  days_before_month y m + days_in_month y m
  = (if m =? 12
     then 365 + (if is_leap y then 1 else 0)
     else days_before_month y (m + 1)).
Proof.
  intros H. unfold days_before_month, days_in_month.
  month_split m H; destruct (is_leap y); reflexivity.
Qed.

Lemma days_before_month_mono (y m m' : Z) :
  1 <= m -> m < m' -> m' <= 12 ->
  days_before_month y m + days_in_month y m <= days_before_month y m'.
Proof.
  intros H1 H2 H3. unfold days_before_month, days_in_month.
  assert (Hm : 1 <= m <= 12) by lia. assert (Hm' : 1 <= m' <= 12) by lia.
  month_split m Hm; month_split m' Hm'; try lia;
    destruct (is_leap y); vm_compute; discriminate.
Qed.

Lemma day_of_year_bounds (d : Date) :
  valid_date d = true ->
  1 <= days_before_month (year d) (month d) + day d
    <= 365 + (if is_leap (year d) then 1 else 0).
Proof.
  intros Hv. pose proof Hv as Hv'. unfold valid_date in Hv'.
  repeat (apply andb_true_iff in Hv'; destruct Hv' as [Hv' ?]).
  repeat match goal with H : (_ <=? _) = true |- _ => apply Z.leb_le in H end.
  apply Z.leb_le in Hv'.
  assert (Hm : 1 <= month d <= 12) by lia.
  pose proof (days_before_month_next (year d) (month d) Hm) as Hn.
  assert (0 <= days_before_month (year d) (month d)).
  { unfold days_before_month.
    month_split (month d) Hm; destruct (is_leap (year d)); vm_compute; discriminate. }
  destruct (Z.eqb_spec (month d) 12) as [E|E]; [lia|].
  assert (days_before_month (year d) (month d + 1)
          <= 365 + (if is_leap (year d) then 1 else 0)).
  { unfold days_before_month.
    month_split (month d) Hm; destruct (is_leap (year d)); vm_compute; discriminate. }
  lia.
Qed.

(** The ordinal of a valid date grows with the date. *)
Lemma toordinal_lt (a b : Date) :
  valid_date a = true -> valid_date b = true ->
  date_lt a b -> toordinal a < toordinal b.
Proof.
  intros Ha Hb Hlt.
  pose proof (day_of_year_bounds a Ha) as Ba.
  pose proof (day_of_year_bounds b Hb) as Bb.
  destruct (valid_date_bounds a Ha) as (Hya & Hma & Hda).
  destruct (valid_date_bounds b Hb) as (Hyb & Hmb & Hdb).
  unfold toordinal. destruct Hlt as [Hy|[Hy [Hm|[Hm Hd]]]].
  - pose proof (days_before_year_succ (year a)) as Hs.
    pose proof (days_before_year_mono (year a + 1) (Z.to_nat (year b - year a - 1))) as Hmono.
    rewrite Z2Nat.id in Hmono by lia.
    replace (year a + 1 + (year b - year a - 1)) with (year b) in Hmono by lia.
    destruct (is_leap (year a)); lia.
  - rewrite <- Hy in *.
    pose proof (days_before_month_mono (year a) (month a) (month b)
                  ltac:(lia) Hm ltac:(lia)).
    assert (day a <= days_in_month (year a) (month a)).
    { unfold valid_date in Ha.
      repeat (apply andb_true_iff in Ha; destruct Ha as [Ha ?]).
      now apply Z.leb_le. }
    lia.
  - rewrite Hy, Hm. lia.
Qed.

Lemma toordinal_le (a b : Date) :
  valid_date a = true -> valid_date b = true ->
  date_leb a b = true -> toordinal a <= toordinal b.
Proof.
  intros Ha Hb H. apply date_leb_le in H. destruct H as [->|H]; [lia|].
  apply Z.lt_le_incl. now apply toordinal_lt.
Qed.

Lemma toordinal_inj (a b : Date) :
  valid_date a = true -> valid_date b = true ->
  toordinal a = toordinal b -> a = b.
Proof.
  intros Ha Hb H. destruct (date_compare_spec a b) as [E|E|E]; [exact E| |].
  - pose proof (toordinal_lt a b Ha Hb E). lia.
  - pose proof (toordinal_lt b a Hb Ha E). lia.
Qed.

Lemma strictly_ascending_unique (l : Series) :
  strictly_ascending l ->
  forall a b, In a l -> In b l -> date a = date b -> a = b.
Proof.
  induction 1 as [|x r Hs IH Hx]; intros a b Ha Hb E; [destruct Ha|].
  rewrite Forall_forall in Hx.
  destruct Ha as [<-|Ha], Hb as [<-|Hb]; auto.
  - specialize (Hx b Hb). rewrite E in Hx. apply date_ltb_lt in Hx.
    exfalso. exact (date_lt_irrefl _ Hx).
  - specialize (Hx a Ha). rewrite E in Hx. apply date_ltb_lt in Hx.
    exfalso. exact (date_lt_irrefl _ Hx).
Qed.

Lemma strictly_ascending_ascending (l : Series) :
  strictly_ascending l -> ascending l.
Proof.
  induction 1 as [|x r Hs IH Hx]; constructor; auto.
  eapply Forall_impl; [|exact Hx]. cbn. intros a. apply date_ltb_leb.
Qed.

(** X5. Looking up the date of an observation of the series (dates valid)
    returns the value of the first observation that carries that date; when
    the dates of the series are strictly increasing it returns the value of
    that very observation. *)
Theorem find_nearest_value_exact (data : Series) (d : Observation) :
  Forall (fun e => valid_date (date e) = true) data ->
  In d data ->
  exists i d',
    nth_error data i = Some d' /\
    date d' = date d /\
    find_nearest_value data (toordinal (date d)) = Some (yield d') /\
    (forall j e, (j < i)%nat -> nth_error data j = Some e -> date e <> date d) /\
    (strictly_ascending data -> d' = d).
Proof.
  intros Hv Hd. rewrite Forall_forall in Hv.
  assert (Hne : data <> []) by (destruct data; [destruct Hd | discriminate]).
  destruct (find_nearest_value_spec (toordinal (date d)) data Hne)
    as (i & d' & Hi & Hf & Hmin & Hfirst).
  assert (Hin' : In d' data) by (eapply nth_error_In; eassumption).
  assert (Hz : day_distance (toordinal (date d)) d = 0)
    by (unfold day_distance; rewrite Z.sub_diag; reflexivity).
  assert (Hd0 : day_distance (toordinal (date d)) d' = 0).
  { specialize (Hmin d Hd). rewrite Hz in Hmin.
    unfold day_distance in *. lia. }
  assert (E : date d' = date d).
  { apply toordinal_inj; auto. unfold day_distance in Hd0. lia. }
  exists i, d'. repeat split; auto.
  - intros j e Hj He Heq. specialize (Hfirst j e He Hj).
    unfold day_distance in Hfirst, Hd0. rewrite Heq, Z.sub_diag in Hfirst.
    cbn in Hfirst. lia.
  - intros Hs. eapply strictly_ascending_unique; eauto.
Qed.

Lemma sample_series_valid :
  Forall (fun e => valid_date (date e) = true) sample_series.
Proof. repeat constructor. Qed.

Lemma find_nearest_value_exact_witness :
  let d := mkObs (mkDate 2024 1 2) 4.50 in
  Forall (fun e => valid_date (date e) = true) sample_series /\
  In d sample_series /\
  exists i d',
    nth_error sample_series i = Some d' /\
    date d' = date d /\
    find_nearest_value sample_series (toordinal (date d)) = Some (yield d') /\
    (forall j e, (j < i)%nat -> nth_error sample_series j = Some e ->
       date e <> date d) /\
    (strictly_ascending sample_series -> d' = d).
Proof.
  intros d. split; [exact sample_series_valid|].
  assert (Hd : In d sample_series) by (right; left; reflexivity).
  split; [exact Hd|].
  exact (find_nearest_value_exact sample_series d sample_series_valid Hd).
Defined.

(** X6. On an ascending series of valid dates the lookup saturates at the
    ends: a target on or before the first date returns the first value, and,
    when the dates are strictly increasing, a target on or after the last
    date returns the last value. *)
Theorem find_nearest_value_saturates (data : Series) (target_date : datetime) :
  Forall (fun e => valid_date (date e) = true) data ->
  ascending data ->
  (forall first rest,
     data = first :: rest ->
     target_date <= toordinal (date first) ->
     find_nearest_value data target_date = Some (yield first)) /\
  (forall init latest,
     data = init ++ [latest] ->
     strictly_ascending data ->
     toordinal (date latest) <= target_date ->
     find_nearest_value data target_date = Some (yield latest)).
Proof.
  intros Hv Hasc. rewrite Forall_forall in Hv. split.
  - intros first rest E Ht.
    assert (Hne : data <> []) by (rewrite E; discriminate).
    destruct (find_nearest_value_spec target_date data Hne)
      as (i & d & Hi & Hf & Hmin & Hfirst).
    destruct i as [|i].
    + rewrite E in Hi. cbn in Hi. injection Hi as <-. exact Hf.
    + exfalso.
      assert (H0 : nth_error data 0 = Some first) by now rewrite E.
      specialize (Hfirst O first H0 ltac:(lia)).
      assert (Hle : toordinal (date first) <= toordinal (date d)).
      { apply toordinal_le.
        - apply Hv. rewrite E. now left.
        - apply Hv. eapply nth_error_In; eassumption.
        - eapply (ascending_nth data Hasc 0 (S i)); eauto. lia. }
      unfold day_distance in Hfirst. lia.
  - intros init latest E Hs Ht.
    assert (Hne : data <> []) by (rewrite E; destruct init; discriminate).
    destruct (find_nearest_value_spec target_date data Hne)
      as (i & d & Hi & Hf & Hmin & _).
    assert (Hlast : nth_error data (List.length init) = Some latest).
    { rewrite E, nth_error_app2, Nat.sub_diag by lia. reflexivity. }
    assert (Hin : In latest data) by (eapply nth_error_In; eassumption).
    assert (Hind : In d data) by (eapply nth_error_In; eassumption).
    assert (Hle : toordinal (date d) <= toordinal (date latest)).
    { apply toordinal_le; auto.
      assert (Hi' : (i < List.length data)%nat)
        by (apply nth_error_Some; congruence).
      rewrite E, length_app in Hi'. cbn in Hi'.
      destruct (Nat.eq_dec i (List.length init)) as [->|Hneq].
      - rewrite Hlast in Hi. injection Hi as <-. apply date_leb_refl.
      - eapply (ascending_nth data Hasc i (List.length init)); eauto. lia. }
    specialize (Hmin latest Hin). unfold day_distance in Hmin.
    assert (Heq : date d = date latest)
      by (apply toordinal_inj; auto; lia).
    rewrite Hf. f_equal. f_equal.
    eapply strictly_ascending_unique; eauto.
Qed.

Lemma find_nearest_value_saturates_witness :
  let target := toordinal (mkDate 2023 12 1) in
  Forall (fun e => valid_date (date e) = true) sample_series /\
  ascending sample_series /\
  (forall first rest,
     sample_series = first :: rest ->
     target <= toordinal (date first) ->
     find_nearest_value sample_series target = Some (yield first)) /\
  (forall init latest,
     sample_series = init ++ [latest] ->
     strictly_ascending sample_series ->
     toordinal (date latest) <= target ->
     find_nearest_value sample_series target = Some (yield latest)).
Proof.
  intros target.
  assert (Hasc : ascending sample_series) by (repeat constructor).
  split; [exact sample_series_valid|]. split; [exact Hasc|].
  exact (find_nearest_value_saturates sample_series target sample_series_valid Hasc).
Defined.

(** ** Feed parser: header, preamble and the success path *)

Section ParserMore.

Variable py_strptime : string -> string -> option Date.
Variable py_float : string -> option Q.

Lemma parse_step_blank (st : ParserState) (row : list string) :
  blank_row row -> parse_step py_strptime py_float st row = Ok st.
Proof. unfold blank_row, parse_step. now intros ->. Qed.

(** Before the header is found, with no value column yet, a row that is not
    a header leaves the flag, the value column and the observations as they
    are. *)
Lemma parse_step_not_header (st : ParserState) (row : list string) :
  header_found st = false -> yield_col st = None -> not_header row ->
  exists st',
    parse_step py_strptime py_float st row = Ok st' /\
    header_found st' = false /\ yield_col st' = None /\
    data_points st' = data_points st.
Proof.
  intros Hh Hy Hn. unfold parse_step. destruct (forallb _ row); [eauto|].
  rewrite Hh. cbn [negb]. fold (upper_row row).
  destruct (index_of "DATE" (upper_row row)) as [i|] eqn:Ei; [|eauto].
  destruct Hn as [Hn|Hn]; [congruence|]. rewrite Hn, Hy.
  eexists. split; [reflexivity|]. cbn. auto.
Qed.

(** Two states that differ at most in the date column, before any header,
    give the same observations on the same rows. *)
Lemma parse_rows_date_col_irrelevant (rows : list (list string)) :
  forall st1 st2 r1 r2,
    header_found st1 = false -> header_found st2 = false ->
    yield_col st1 = None -> yield_col st2 = None ->
    data_points st1 = data_points st2 ->
    parse_rows py_strptime py_float st1 rows = Ok r1 ->
    parse_rows py_strptime py_float st2 rows = Ok r2 ->
    data_points r1 = data_points r2.
Proof.
  induction rows as [|row rows IH]; intros st1 st2 r1 r2 H1 H2 Y1 Y2 D; cbn.
  - intros E1 E2. injection E1 as <-. injection E2 as <-. exact D.
  - unfold parse_step. destruct (forallb _ row); cbn [bind]; [now apply IH|].
    rewrite H1, H2. cbn [negb]. fold (upper_row row).
    destruct (index_of "DATE" (upper_row row)) as [i|]; cbn [bind]; [|now apply IH].
    rewrite Y1, Y2, D. congruence.
Qed.

Lemma parse_rows_preamble (pre : list (list string)) :
  Forall not_header pre ->
  forall st,
    header_found st = false -> yield_col st = None ->
    exists st',
      parse_rows py_strptime py_float st pre = Ok st' /\
      header_found st' = false /\ yield_col st' = None /\
      data_points st' = data_points st.
Proof.
  induction 1 as [|row pre Hrow Hpre IH]; intros st Hh Hy; cbn.
  - eauto.
  - destruct (parse_step_not_header st row Hh Hy Hrow) as (st1 & -> & Hh1 & Hy1 & Hd1).
    cbn [bind]. destruct (IH st1 Hh1 Hy1) as (st2 & -> & Hh2 & Hy2 & Hd2).
    exists st2. repeat split; congruence.
Qed.

End ParserMore.

(** X7. Rows that come before the header and are not themselves a header
    (no [DATE] cell, or no cell with the series code) have no effect on the
    series: the parser returns what it returns without them.  In particular a
    feed with no header row gives the empty series. *)
Theorem parse_boe_csv_preamble
    (py_strptime : string -> string -> option Date)
    (py_float : string -> option Q) (pre rows : list (list string)) :
  Forall not_header pre ->
  parse_boe_csv py_strptime py_float (pre ++ rows)
  = parse_boe_csv py_strptime py_float rows /\
  parse_boe_csv py_strptime py_float pre = Ok [].
Proof.
  intros Hpre.
  destruct (parse_rows_preamble py_strptime py_float pre Hpre initial_state
              eq_refl eq_refl) as (st & Hst & Hh & Hy & Hd).
  split.
  - unfold parse_boe_csv. rewrite parse_rows_app, Hst. cbn [bind].
    destruct (parse_rows_total py_strptime py_float rows st) as [r1 E1].
    destruct (parse_rows_total py_strptime py_float rows initial_state) as [r2 E2].
    rewrite E1, E2. cbn [bind]. do 2 f_equal.
    eapply (parse_rows_date_col_irrelevant py_strptime py_float rows st initial_state);
      eauto.
  - unfold parse_boe_csv. rewrite Hst. cbn [bind]. rewrite Hd. reflexivity.
Qed.

Lemma parse_boe_csv_preamble_witness :
  let pre := [ ["Bank of England"]; ["DATE"; "VALUE"] ]%string in
  Forall not_header pre /\
  parse_boe_csv strptime float_decimal (pre ++ scenario_feed)
  = parse_boe_csv strptime float_decimal scenario_feed /\
  parse_boe_csv strptime float_decimal pre = Ok [].
Proof.
  intros pre.
  assert (H : Forall not_header pre).
  { constructor; [left; reflexivity|]. constructor; [right; reflexivity|]. constructor. }
  split; [exact H|].
  exact (parse_boe_csv_preamble strptime float_decimal pre scenario_feed H).
Defined.

(** X8. A row of blank cells only is skipped wherever it stands in the feed,
    before or after the header. *)
Theorem parse_boe_csv_blank_row
    (py_strptime : string -> string -> option Date)
    (py_float : string -> option Q) (before after : list (list string))
    (row : list string) :
  blank_row row ->
  parse_boe_csv py_strptime py_float (before ++ row :: after)
  = parse_boe_csv py_strptime py_float (before ++ after).
Proof.
  intros Hb. unfold parse_boe_csv. rewrite !parse_rows_app.
  destruct (parse_rows py_strptime py_float initial_state before) as [st|e];
    cbn [bind parse_rows]; [|reflexivity].
  now rewrite (parse_step_blank py_strptime py_float st row Hb).
Qed.

Lemma parse_boe_csv_blank_row_witness :
  let before := [ ["DATE"; "IUDMNZC"]; ["01 Jan 2024"; "4.00"] ]%string in
  let after := [ ["02 Jan 2024"; "4.10"] ]%string in
  let row := [ "  "; ""; " " ]%string in
  blank_row row /\
  parse_boe_csv strptime float_decimal (before ++ row :: after)
  = parse_boe_csv strptime float_decimal (before ++ after).
Proof.
  intros before after row.
  assert (H : blank_row row) by reflexivity.
  split; [exact H|].
  exact (parse_boe_csv_blank_row strptime float_decimal before after row H).
Defined.


Section ParserSuccess.

Variable py_strptime : string -> string -> option Date.
Variable py_float : string -> option Q.




End ParserSuccess.









(** X11. [parse_boe_date] tries the formats day-abbreviated month-year,
    day-full month-year, day/month/year, year-month-day in that order: it
    returns a date exactly when some format parses the text and none before
    it does, and that date is the one this first format gives; it raises
    [ValueError], and nothing else, exactly when no format parses. *)
Theorem parse_boe_date_priority
    (py_strptime : string -> string -> option Date) (date_str : string) :
  (forall d,
     parse_boe_date py_strptime date_str = Ok d <->
     exists before fmt after,
       ["%d %b %Y"; "%d %B %Y"; "%d/%m/%Y"; "%Y-%m-%d"]%string
         = before ++ fmt :: after /\
       (forall f, In f before -> py_strptime date_str f = None) /\
       py_strptime date_str fmt = Some d) /\
  (parse_boe_date py_strptime date_str = Raise ValueError <->
   forall fmt,
     In fmt ["%d %b %Y"; "%d %B %Y"; "%d/%m/%Y"; "%Y-%m-%d"]%string ->
     py_strptime date_str fmt = None) /\
  (forall e, parse_boe_date py_strptime date_str = Raise e -> e = ValueError).
Proof.
  split; [|split].
  - intros d. apply try_formats_first.
  - split; [|apply try_formats_none].
    intros H fmt Hin. destruct (py_strptime date_str fmt) as [d|] eqn:E; [|reflexivity].
    exfalso. unfold parse_boe_date, formats in H. cbn [try_formats] in H.
    repeat match type of H with
           | context [py_strptime date_str ?f] =>
               destruct (py_strptime date_str f) eqn:?; [discriminate|]
           end.
    cbn in Hin. repeat (destruct Hin as [<-|Hin]; [congruence|]). exact Hin.
  - intros e H.
    destruct (try_formats_cases py_strptime date_str formats) as [[d Hd]|Hd];
      unfold parse_boe_date in H; rewrite Hd in H; [discriminate | now injection H].
Qed.

Lemma parse_boe_date_priority_witness :
  parse_boe_date strptime "2024-01-02" = Ok (mkDate 2024 1 2) /\
  exists before fmt after,
    ["%d %b %Y"; "%d %B %Y"; "%d/%m/%Y"; "%Y-%m-%d"]%string
      = before ++ fmt :: after /\
    (forall f, In f before -> strptime "2024-01-02" f = None) /\
    strptime "2024-01-02" fmt = Some (mkDate 2024 1 2).
Proof.
  assert (H : parse_boe_date strptime "2024-01-02" = Ok (mkDate 2024 1 2))
    by reflexivity.
  split; [exact H|].
  exact (proj1 (proj1 (parse_boe_date_priority strptime "2024-01-02")
                      (mkDate 2024 1 2)) H).
Defined.

(** ** Round trips of dates through text *)

Local Open Scope string_scope.

Lemma is_space_digit_char (k : Z) : 0 <= k <= 9 -> is_space (digit_char k) = false.
Proof. intros H. digit_split k H; reflexivity. Qed.

Lemma digit_char_not_T (k : Z) : 0 <= k <= 9 -> Ascii.eqb (digit_char k) "T" = false.
Proof. intros H. digit_split k H; reflexivity. Qed.

Lemma digit_char_not_slash (k : Z) :
  0 <= k <= 9 -> Ascii.eqb (upper_char (digit_char k)) (upper_char "/") = false.
Proof. intros H. digit_split k H; reflexivity. Qed.

Lemma split_head_pad2 (n : Z) (s : string) :
  0 <= n <= 99 -> split_head "T" (pad2 n s) = pad2 n (split_head "T" s).
Proof.
  intros H. destruct (two_digit_bounds n H) as (Ha & Hb & _).
  unfold pad2. cbn [split_head]. now rewrite !digit_char_not_T.
Qed.

Lemma split_head_iso_stamp (d : Date) (rest : string) :
  valid_date d = true -> split_head "T" (iso_stamp d rest) = strftime_iso d.
Proof.
  intros Hv. destruct (valid_date_bounds d Hv) as (Hy & Hm & Hd).
  destruct (four_digit_bounds (year d) ltac:(lia)) as (Hh & Hl & _).
  unfold iso_stamp, strftime_iso, pad4.
  rewrite !split_head_pad2 by lia. cbn [split_head].
  change (Ascii.eqb "-" "T") with false. cbv iota.
  rewrite split_head_pad2 by lia. cbn [split_head].
  change (Ascii.eqb "-" "T") with false. cbv iota.
  rewrite split_head_pad2 by lia. cbn [split_head].
  now rewrite Ascii.eqb_refl.
Qed.

(** X12. The date of the live quote is the date before the [T] of its time
    stamp, whatever follows the [T]; when the quote has no time stamp it is
    the latest date of the series. *)
Theorem quote_date_of_stamp (stats : Stats) (d : Date) (rest : string)
    (live_y : option Q) :
  valid_date d = true ->
  quote_date strptime stats
    {| live_yield := live_y; last_time := Some (iso_stamp d rest) |}
  = Ok (toordinal d) /\
  quote_date strptime stats {| live_yield := live_y; last_time := None |}
  = Ok (toordinal (current_date stats)).
Proof.
  intros Hv. split; [|reflexivity].
  unfold quote_date. cbn [last_time of_option bind].
  rewrite (split_head_iso_stamp d rest Hv), (strptime_strftime_iso d Hv).
  reflexivity.
Qed.

Lemma quote_date_of_stamp_witness :
  valid_date (mkDate 2024 1 2) = true /\
  quote_date strptime sample_stats
    {| live_yield := Some 5.10%Q;
       last_time := Some (iso_stamp (mkDate 2024 1 2) "09:22:08.000+0000") |}
  = Ok (toordinal (mkDate 2024 1 2)) /\
  quote_date strptime sample_stats {| live_yield := Some 5.10%Q; last_time := None |}
  = Ok (toordinal (current_date sample_stats)).
Proof.
  split; [reflexivity|].
  apply (quote_date_of_stamp sample_stats (mkDate 2024 1 2) "09:22:08.000+0000"
           (Some 5.10%Q)).
  reflexivity.
Defined.

Local Close Scope string_scope.

Local Open Scope string_scope.

Section DayFails.

Variable rest : string -> fields -> option (string * fields).

(** The rest of the pattern fails on a text that starts with a digit. *)
Hypothesis rest_fails :
  forall k s f, 0 <= k <= 9 -> rest (String (digit_char k) s) f = None.

Lemma two_digits_fails (lo1 hi1 lo2 hi2 : Z) (set : fields -> Z -> fields)
    (x y : ascii) (c : Z) (s : string) (f : fields) :
  0 <= c <= 9 ->
  two_digits rest lo1 hi1 lo2 hi2 set (String x (String y (String (digit_char c) s))) f
  = None.
Proof.
  intros Hc. unfold two_digits.
  destruct (digit_of x); [|reflexivity]. destruct (digit_of y); [|reflexivity].
  destruct (_ && _); [now apply rest_fails | reflexivity].
Qed.

Lemma one_digit_fails (set : fields -> Z -> fields)
    (x : ascii) (b : Z) (s : string) (f : fields) :
  0 <= b <= 9 ->
  one_digit rest set (String x (String (digit_char b) s)) f = None.
Proof.
  intros Hb. unfold one_digit.
  destruct (digit_of x); [|reflexivity].
  destruct (1 <=? _)%Z; [now apply rest_fails | reflexivity].
Qed.

(** No reading of a day succeeds at the start of a text whose second and
    third characters are digits. *)
Lemma match_day_fails (x : ascii) (b c : Z) (s : string) (f : fields) :
  0 <= b <= 9 -> 0 <= c <= 9 ->
  match_day rest (String x (String (digit_char b) (String (digit_char c) s))) f = None.
Proof.
  intros Hb Hc. unfold match_day.
  rewrite !two_digits_fails by assumption.
  rewrite one_digit_fails by assumption. cbn [first_some].
  assert (H : one_digit rest set_day (String (digit_char b) (String (digit_char c) s)) f
              = None) by now apply one_digit_fails.
  destruct x as [[|] [|] [|] [|] [|] [|] [|] [|]]; try reflexivity.
  now rewrite H.
Qed.

End DayFails.

Lemma iso_text_no_day (p : list directive) (d : Date) :
  valid_date d = true ->
  (forall k s f, 0 <= k <= 9 -> match_pattern p (String (digit_char k) s) f = None) ->
  match_pattern (DDay :: p) (strftime_iso d) (1900, 1, 1) = None.
Proof.
  intros Hv Hp. destruct (valid_date_bounds d Hv) as (Hy & _ & _).
  destruct (four_digit_bounds (year d) ltac:(lia)) as (Hh & Hl & _).
  destruct (two_digit_bounds _ Hh) as (Ha & Hb & _).
  destruct (two_digit_bounds _ Hl) as (Hc & _ & _).
  cbn [match_pattern]. unfold strftime_iso, pad4, pad2.
  now apply match_day_fails.
Qed.

(** X13. The parser reads back the dates it writes: the ISO text of a valid
    date parses under none of the three day-first formats and under the
    year-month-day format gives the date. *)
Theorem parse_boe_date_iso (d : Date) :
  valid_date d = true ->
  strptime (strftime_iso d) "%d %b %Y" = None /\
  strptime (strftime_iso d) "%d %B %Y" = None /\
  strptime (strftime_iso d) "%d/%m/%Y" = None /\
  parse_boe_date strptime (strftime_iso d) = Ok d.
Proof.
  intros Hv.
  assert (H1 : strptime (strftime_iso d) "%d %b %Y" = None).
  { unfold strptime.
    change (compile_format "%d %b %Y") with [DDay; DSpaces; DAbbrev; DSpaces; DYear].
    rewrite iso_text_no_day; [reflexivity | exact Hv |].
    intros k s f Hk. cbn [match_pattern]. unfold match_spaces.
    now rewrite is_space_digit_char. }
  assert (H2 : strptime (strftime_iso d) "%d %B %Y" = None).
  { unfold strptime.
    change (compile_format "%d %B %Y") with [DDay; DSpaces; DFull; DSpaces; DYear].
    rewrite iso_text_no_day; [reflexivity | exact Hv |].
    intros k s f Hk. cbn [match_pattern]. unfold match_spaces.
    now rewrite is_space_digit_char. }
  assert (H3 : strptime (strftime_iso d) "%d/%m/%Y" = None).
  { unfold strptime.
    change (compile_format "%d/%m/%Y") with [DDay; DLit "/"; DMonth; DLit "/"; DYear].
    rewrite iso_text_no_day; [reflexivity | exact Hv |].
    intros k s f Hk. cbn [match_pattern]. unfold match_lit.
    now rewrite digit_char_not_slash. }
  repeat split; auto.
  unfold parse_boe_date, formats. cbn [try_formats].
  now rewrite H1, H2, H3, (strptime_strftime_iso d Hv).
Qed.

Lemma parse_boe_date_iso_witness :
  valid_date (mkDate 2024 2 29) = true /\
  strptime (strftime_iso (mkDate 2024 2 29)) "%d %b %Y" = None /\
  strptime (strftime_iso (mkDate 2024 2 29)) "%d %B %Y" = None /\
  strptime (strftime_iso (mkDate 2024 2 29)) "%d/%m/%Y" = None /\
  parse_boe_date strptime (strftime_iso (mkDate 2024 2 29)) = Ok (mkDate 2024 2 29).
Proof.
  split; [reflexivity|]. apply (parse_boe_date_iso (mkDate 2024 2 29)). reflexivity.
Defined.

Local Close Scope string_scope.

Local Open Scope string_scope.

Section DisplayMatch.

Variable rest : string -> fields -> option (string * fields).



End DisplayMatch.






Example format_date_display_run :
  format_date_display "2024-01-02" = "02 Jan 2024".
Proof. reflexivity. Qed.

Local Close Scope string_scope.

(** ** Source reconciler: the chart series as a whole *)

Local Open Scope Q_scope.

Lemma four_digits_opp (x : Q) : four_digits x -> four_digits (- x).
Proof.
  intros [n Hn]. exists (- n)%Z. rewrite Hn. unfold Qeq, Qopp. cbn. lia.
Qed.

Lemma four_digits_zero : four_digits 0.
Proof. exists 0%Z. reflexivity. Qed.

(** Every outcome of the section, in one shape: the chart values are the
    series' values plus the spread that is left, rounded. *)
Lemma generate_dashboard_shift
    (py_strptime : string -> string -> option Date)
    (data : Series) (stats : Stats) (live_data : option LiveQuote)
    (view : ReconciledView) :
  generate_dashboard py_strptime data stats live_data = Ok view ->
  four_digits (spread view) /\
  dates_json view = map date data /\
  (yields_json view = map (fun d => round4 (yield d + spread view)) data \/
   (spread view = 0 /\ yields_json view = map yield data)).
Proof.
  intros Hgen. destruct live_data as [live|].
  - destruct (live_yield live) as [ly|] eqn:Hly.
    + destruct (quote_date_total py_strptime stats live) as [cd Hcd].
      destruct (generate_dashboard_live py_strptime data stats live ly cd Hly Hcd)
        as [[_ Heq]|[_ Heq]]; rewrite Heq in Hgen; injection Hgen as <-; cbn.
      * split; [apply round4_four_digits|]. split; [reflexivity|]. now left.
      * split; [apply four_digits_zero|]. split; [reflexivity|]. now right.
    + unfold generate_dashboard in Hgen. rewrite Hly in Hgen. injection Hgen as <-.
      cbn. split; [apply four_digits_zero|]. split; [reflexivity|]. now right.
  - cbn in Hgen. injection Hgen as <-. cbn.
    split; [apply four_digits_zero|]. split; [reflexivity|]. now right.
Qed.

(** X15. Whatever the live quote, the chart series is the input series moved
    by the spread that the section reports (0 when none is applied): the
    dates are the input dates, each chart value is the observation's value
    plus that spread, and so the difference between any two chart values is
    the difference between the two observations. *)
Theorem generate_dashboard_level_shift
    (py_strptime : string -> string -> option Date)
    (data : Series) (stats : Stats) (live_data : option LiveQuote)
    (view : ReconciledView) :
  generate_dashboard py_strptime data stats live_data = Ok view ->
  Forall (fun d => four_digits (yield d)) data ->
  dates_json view = map date data /\
  List.length (yields_json view) = List.length data /\
  (forall i d, nth_error data i = Some d ->
     exists v, nth_error (yields_json view) i = Some v /\
               v == yield d + spread view) /\
  (forall i j di dj vi vj,
     nth_error data i = Some di -> nth_error data j = Some dj ->
     nth_error (yields_json view) i = Some vi ->
     nth_error (yields_json view) j = Some vj ->
     vi - vj == yield di - yield dj).
Proof.
  intros Hgen H4.
  destruct (generate_dashboard_shift py_strptime data stats live_data view Hgen)
    as (Hs & Hdates & Hy).
  rewrite Forall_forall in H4.
  assert (Hval : forall i d, nth_error data i = Some d ->
            exists v, nth_error (yields_json view) i = Some v /\
                      v == yield d + spread view).
  { intros i d Hi. destruct Hy as [Hy|[H0 Hy]]; rewrite Hy, nth_error_map, Hi; cbn.
    - eexists. split; [reflexivity|]. apply round4_fixed.
      apply four_digits_plus; [|exact Hs]. apply H4.
      eapply nth_error_In; eassumption.
    - eexists. split; [reflexivity|]. rewrite H0. ring. }
  split; [exact Hdates|]. split.
  - destruct Hy as [Hy|[_ Hy]]; rewrite Hy; apply length_map.
  - split; [exact Hval|].
    intros i j di dj vi vj Hi Hj Hvi Hvj.
    destruct (Hval i di Hi) as (vi' & Hvi' & Ei).
    destruct (Hval j dj Hj) as (vj' & Hvj' & Ej).
    rewrite Hvi in Hvi'. rewrite Hvj in Hvj'.
    injection Hvi' as <-. injection Hvj' as <-. rewrite Ei, Ej. ring.
Qed.

Lemma generate_dashboard_level_shift_witness :
  let view :=
    {| dates_json := [mkDate 2024 1 1; mkDate 2024 1 2];
       yields_json := [5.0000; 5.1000];
       spread := 0.6000;
       spread_ok := true;
       headline_value := 5.10;
       warning := None;
       subtitle_spread := Some 0.6000 |} in
  generate_dashboard strptime sample_series sample_stats (Some (sample_quote 5.10))
    = Ok view /\
  Forall (fun d => four_digits (yield d)) sample_series /\
  dates_json view = map date sample_series /\
  List.length (yields_json view) = List.length sample_series /\
  (forall i d, nth_error sample_series i = Some d ->
     exists v, nth_error (yields_json view) i = Some v /\
               v == yield d + spread view) /\
  (forall i j di dj vi vj,
     nth_error sample_series i = Some di -> nth_error sample_series j = Some dj ->
     nth_error (yields_json view) i = Some vi ->
     nth_error (yields_json view) j = Some vj ->
     vi - vj == yield di - yield dj).
Proof.
  intros view. split; [vm_compute; reflexivity|].
  split; [exact sample_series_four_digits|].
  apply (generate_dashboard_level_shift strptime sample_series sample_stats
           (Some (sample_quote 5.10)) view).
  - vm_compute. reflexivity.
  - exact sample_series_four_digits.
Defined.

(** X16. When the spread is applied and the live yield has at most four
    fractional digits, the chart passes through the quote: the chart value at
    the observation that was matched to the quote's date is the headline
    value. *)
Theorem generate_dashboard_meets_quote
    (py_strptime : string -> string -> option Date)
    (data : Series) (stats : Stats) (live : LiveQuote) (ly : Q)
    (view : ReconciledView) :
  data <> [] ->
  generate_dashboard py_strptime data stats (Some live) = Ok view ->
  live_yield live = Some ly ->
  spread_ok view = true ->
  four_digits ly ->
  Forall (fun d => four_digits (yield d)) data ->
  exists cnbc_date i d v,
    quote_date py_strptime stats live = Ok cnbc_date /\
    nth_error data i = Some d /\
    find_nearest_value data cnbc_date = Some (yield d) /\
    nth_error (yields_json view) i = Some v /\
    v == headline_value view /\
    headline_value view = ly.
Proof.
  intros Hne Hgen Hly Hok H4l H4.
  destruct (quote_date_total py_strptime stats live) as [cd Hcd].
  destruct (find_nearest_value_spec cd data Hne) as (i & d & Hi & Hf & _).
  pose proof (generate_dashboard_live py_strptime data stats live ly cd Hly Hcd) as Hc.
  rewrite Hf in Hc. cbv zeta in Hc.
  destruct Hc as [[_ Heq]|[_ Heq]]; rewrite Heq in Hgen; injection Hgen as <-;
    cbn in Hok; [|discriminate].
  exists cd, i, d, (round4 (yield d + round4 (ly - yield d))). cbn.
  split; [exact Hcd|]. split; [exact Hi|]. split; [exact Hf|].
  split; [now rewrite nth_error_map, Hi|]. split; [|reflexivity].
  rewrite Forall_forall in H4.
  assert (Hd4 : four_digits (yield d)) by (apply H4; eapply nth_error_In; eassumption).
  assert (Hdiff : four_digits (ly - yield d))
    by (apply four_digits_plus; [exact H4l | now apply four_digits_opp]).
  rewrite round4_fixed
    by (apply four_digits_plus; [exact Hd4 | apply round4_four_digits]).
  rewrite (round4_fixed (ly - yield d) Hdiff). ring.
Qed.

Lemma generate_dashboard_meets_quote_witness :
  let view :=
    {| dates_json := [mkDate 2024 1 1; mkDate 2024 1 2];
       yields_json := [5.0000; 5.1000];
       spread := 0.6000;
       spread_ok := true;
       headline_value := 5.10;
       warning := None;
       subtitle_spread := Some 0.6000 |} in
  sample_series <> [] /\
  generate_dashboard strptime sample_series sample_stats (Some (sample_quote 5.10))
    = Ok view /\
  live_yield (sample_quote 5.10) = Some 5.10 /\
  spread_ok view = true /\
  four_digits 5.10 /\
  Forall (fun d => four_digits (yield d)) sample_series /\
  exists cnbc_date i d v,
    quote_date strptime sample_stats (sample_quote 5.10) = Ok cnbc_date /\
    nth_error sample_series i = Some d /\
    find_nearest_value sample_series cnbc_date = Some (yield d) /\
    nth_error (yields_json view) i = Some v /\
    v == headline_value view /\
    headline_value view = 5.10.
Proof.
  intros view.
  assert (Hne : sample_series <> []) by discriminate.
  assert (Hgen : generate_dashboard strptime sample_series sample_stats
                   (Some (sample_quote 5.10)) = Ok view) by (vm_compute; reflexivity).
  assert (H4 : four_digits 5.10) by (exists 51000%Z; reflexivity).
  split; [exact Hne|]. split; [exact Hgen|]. split; [reflexivity|].
  split; [reflexivity|]. split; [exact H4|].
  split; [exact sample_series_four_digits|].
  exact (generate_dashboard_meets_quote strptime sample_series sample_stats
           (sample_quote 5.10) 5.10 view Hne Hgen eq_refl eq_refl H4
           sample_series_four_digits).
Defined.

Local Close Scope Q_scope.

Local Open Scope Q_scope.

(** X17. Without a live quote, a run of [fetch_and_generate] that succeeds
    returns the parsed series (not empty), its statistics, and a view in
    which nothing is adjusted: the headline is the value of the last
    observation of the series, the chart values are the series' values, the
    spread is 0 and no warning is given. *)
Theorem fetch_and_generate_series_only
    (py_strptime : string -> string -> option Date)
    (py_float : string -> option Q) (rows : list (list string))
    (data : Series) (stats : Stats) (view : ReconciledView) :
  fetch_and_generate py_strptime py_float rows None = Ok (data, stats, view) ->
  parse_boe_csv py_strptime py_float rows = Ok data /\
  compute_stats data = Ok (Some stats) /\
  (exists init latest,
     data = init ++ [latest] /\ headline_value view = yield latest) /\
  dates_json view = map date data /\
  yields_json view = map yield data /\
  spread view = 0 /\ spread_ok view = false /\ warning view = None.
Proof.
  unfold fetch_and_generate.
  destruct (parse_boe_csv py_strptime py_float rows) as [pts|e]; cbn [bind];
    [|discriminate].
  destruct pts as [|first others]; [discriminate|].
  destruct (compute_stats (first :: others)) as [[st|]|e] eqn:Hs; cbn [bind];
    try discriminate.
  cbn [generate_dashboard bind]. intros H. injection H as <- <- <-.
  split; [reflexivity|]. split; [exact Hs|]. cbn.
  split; [|repeat split; reflexivity].
  exists (removelast (first :: others)), (last (first :: others) first). split.
  - apply app_removelast_last. discriminate.
  - destruct (compute_stats_inv first others st Hs)
      as (_ & _ & _ & _ & _ & _ & _ & _ & Hc & _). exact Hc.
Qed.

Lemma fetch_and_generate_series_only_witness :
  let data := [ mkObs (mkDate 2024 1 1) 4.0000; mkObs (mkDate 2024 1 2) 4.1000 ] in
  exists stats view,
    fetch_and_generate strptime float_decimal scenario_feed None
      = Ok (data, stats, view) /\
    parse_boe_csv strptime float_decimal scenario_feed = Ok data /\
    compute_stats data = Ok (Some stats) /\
    (exists init latest,
       data = init ++ [latest] /\ headline_value view = yield latest) /\
    dates_json view = map date data /\
    yields_json view = map yield data /\
    spread view = 0 /\ spread_ok view = false /\ warning view = None.
Proof.
  intros data. do 2 eexists.
  assert (H : fetch_and_generate strptime float_decimal scenario_feed None
              = Ok (data, _, _)) by (vm_compute; reflexivity).
  split; [exact H|].
  exact (fetch_and_generate_series_only strptime float_decimal scenario_feed
           data _ _ H).
Defined.

Local Close Scope Q_scope.

(** ** The script: smoothing of a shifted series, and the two smoothers *)

Local Open Scope Q_scope.

Lemma nth_shifted (s : Q) (data data' : list Q) :
  Forall2 (fun y y' => y' == y + s) data data' ->
  forall j, (j < List.length data)%nat -> nth j data' 0 == nth j data 0 + s.
Proof.
  induction 1 as [|y y' l l' Hy Hl IH]; intros j Hj; cbn in Hj; [lia|].
  destruct j as [|j]; cbn; [exact Hy|]. apply IH. lia.
Qed.

Lemma sum_from_shifted (s : Q) (data data' : list Q) :
  Forall2 (fun y y' => y' == y + s) data data' ->
  forall n j acc acc',
    (j + n <= List.length data)%nat ->
    acc' == acc ->
    sum_from data' j n acc'
    == sum_from data j n acc + inject_Z (Z.of_nat n) * s.
Proof.
  intros H. induction n as [|n IH]; intros j acc acc' Hj Hacc; cbn [sum_from].
  - rewrite Hacc. cbn. ring.
  - rewrite (IH (S j) (acc + nth j data 0 + s) (acc' + nth j data' 0)).
    + assert (E : sum_from data (S j) n (acc + nth j data 0 + s)
                  == sum_from data (S j) n (acc + nth j data 0) + s).
      { rewrite !sum_from_total by lia. ring. }
      rewrite E, Nat2Z.inj_succ. unfold Z.succ. rewrite inject_Z_plus. ring.
    + lia.
    + rewrite Hacc, (nth_shifted s data data' H j) by lia. ring.
Qed.

(** X18. Smoothing commutes with a level shift: if every value of a second
    series is the value of the first plus a constant s, then, for a window
    W >= 1, the two outputs of [computeSMA] are null at the same indices and
    elsewhere the average of the second is the average of the first plus s.
    (The yield chart draws the average of the adjusted series.) *)
Theorem computeSMA_shift (s : Q) (data data' : list Q) (W : Z) :
  (1 <= W)%Z ->
  Forall2 (fun y y' => y' == y + s) data data' ->
  forall i, (i < List.length data)%nat ->
    ((Z.of_nat i < W - 1)%Z ->
     nth_error (computeSMA data W) i = Some None /\
     nth_error (computeSMA data' W) i = Some None) /\
    ((W - 1 <= Z.of_nat i)%Z ->
     exists m m',
       nth_error (computeSMA data W) i = Some (Some (Num m)) /\
       nth_error (computeSMA data' W) i = Some (Some (Num m')) /\
       m' == m + s).
Proof.
  intros HW H i Hi.
  assert (Hlen : List.length data' = List.length data)
    by (symmetry; eapply Forall2_length; eassumption).
  rewrite !computeSMA_map, !nth_error_map_seq by lia. unfold sma_entry. split.
  - intros Hlt. destruct (Z.ltb_spec (Z.of_nat i) (W - 1)); [split; reflexivity | lia].
  - intros Hge. destruct (Z.ltb_spec (Z.of_nat i) (W - 1)); [lia|].
    destruct (Z.eqb_spec W 0); [lia|].
    do 2 eexists. split; [reflexivity|]. split; [reflexivity|].
    rewrite (sum_from_shifted s data data' H (Z.to_nat W) _ 0 0)
      by (try lia; reflexivity).
    rewrite Z2Nat.id by lia. field.
    intros E. unfold Qeq in E. cbn in E. lia.
Qed.

Lemma computeSMA_shift_witness :
  let data := [4.00; 4.10; 4.30] in
  let data' := [4.60; 4.70; 4.90] in
  (1 <= 2)%Z /\
  Forall2 (fun y y' => y' == y + 0.60) data data' /\
  forall i, (i < List.length data)%nat ->
    ((Z.of_nat i < 2 - 1)%Z ->
     nth_error (computeSMA data 2) i = Some None /\
     nth_error (computeSMA data' 2) i = Some None) /\
    ((2 - 1 <= Z.of_nat i)%Z ->
     exists m m',
       nth_error (computeSMA data 2) i = Some (Some (Num m)) /\
       nth_error (computeSMA data' 2) i = Some (Some (Num m')) /\
       m' == m + 0.60).
Proof.
  intros data data'.
  assert (H : Forall2 (fun y y' => y' == y + 0.60) data data')
    by (repeat constructor).
  split; [lia|]. split; [exact H|].
  apply (computeSMA_shift 0.60 data data' 2); [lia | exact H].
Defined.

Lemma present_map_Some (l : list Q) : present (map Some l) = l.
Proof. induction l as [|x l IH]; cbn; congruence. Qed.

(** X19. On a projection without gaps the two smoothers agree: from index 29
    on, the partial-window average that [updateValueChart] computes is the
    average that [computeSMA] computes with window 30, and below index 29
    both are absent. *)
Theorem value_average_without_gaps (values : list Q) (i : nat) :
  (i < List.length values)%nat ->
  ((i < 29)%nat ->
   value_sma_entry (map Some values) i = None /\
   nth_error (computeSMA values 30) i = Some None) /\
  ((29 <= i)%nat ->
   exists m m',
     value_sma_entry (map Some values) i = Some m /\
     nth_error (computeSMA values 30) i = Some (Some (Num m')) /\
     m == m').
Proof.
  intros Hi. rewrite computeSMA_map, nth_error_map_seq by exact Hi.
  unfold sma_entry. split.
  - intros Hlt. unfold value_sma_entry.
    destruct (Nat.ltb_spec i 29); [|lia].
    destruct (Z.ltb_spec (Z.of_nat i) (30 - 1)); [split; reflexivity | lia].
  - intros Hge. destruct (Z.ltb_spec (Z.of_nat i) (30 - 1)); [lia|].
    change (30 =? 0)%Z with false. cbv iota.
    destruct (value_sma_entry_spec (map Some values) i) as [_ Hne];
      [now rewrite length_map | exact Hge |].
    assert (Hw : present (trailing 30 i (map Some values)) = trailing 30 i values).
    { unfold trailing. rewrite skipn_map, firstn_map. apply present_map_Some. }
    rewrite Hw in Hne.
    assert (Hlen : List.length (trailing 30 i values) = 30%nat).
    { unfold trailing. rewrite length_firstn, length_skipn. lia. }
    destruct Hne as (m & Hm & Em).
    { intros E. rewrite E in Hlen. discriminate. }
    exists m. eexists. split; [exact Hm|]. split; [reflexivity|].
    rewrite Em. unfold mean. rewrite Hlen.
    rewrite sum_from_total by lia.
    replace (Z.to_nat (Z.of_nat i - 30 + 1)) with (S i - 30)%nat by lia.
    change (Z.to_nat 30) with 30%nat. unfold trailing.
    rewrite Qplus_0_l. reflexivity.
Qed.

Lemma value_average_without_gaps_witness :
  let values := map (fun n => inject_Z (Z.of_nat n)) (seq 1 31) in
  (29 < List.length values)%nat /\
  ((29 < 29)%nat ->
   value_sma_entry (map Some values) 29 = None /\
   nth_error (computeSMA values 30) 29 = Some None) /\
  ((29 <= 29)%nat ->
   exists m m',
     value_sma_entry (map Some values) 29 = Some m /\
     nth_error (computeSMA values 30) 29 = Some (Some (Num m')) /\
     m == m').
Proof.
  intros values.
  assert (H : (29 < List.length values)%nat) by (vm_compute; lia).
  split; [exact H|]. exact (value_average_without_gaps values 29 H).
Defined.

Local Close Scope Q_scope.

(** ** The calculator: when it shows a result, and which way values move *)

Local Open Scope Q_scope.

Lemma rejected_input_false_iff (a b : number) :
  rejected_input a b = false <->
  exists x y, a = Num x /\ b = Num y /\ 0 < x /\ 0 < y.
Proof.
  split.
  - unfold rejected_input, is_falsy, le_zero. intros H.
    destruct a as [x|]; [|discriminate].
    destruct b as [y|].
    + apply orb_false_iff in H. destruct H as [H Hy].
      apply orb_false_iff in H. destruct H as [_ Hx].
      exists x, y. repeat split; now apply Qleb_false.
    + exfalso. destruct (Qeq_bool x 0); discriminate.
  - intros (x & y & -> & -> & Hx & Hy). now apply rejected_input_false.
Qed.

(** X20. In yield mode [recalculate] shows the result panel exactly when the
    rent and the yield are numbers greater than 0; in price mode, exactly
    when the rent and the price are.  In every other case (an empty or
    unreadable field, a zero, a negative number) it shows the placeholder and
    hides the value chart. *)
Theorem recalculate_panel (yields : list Q) (CURRENT_GILT : Q)
    (rent price yld : number) (pt : Z) :
  (content (recalculate yields CURRENT_GILT ModeYield rent price yld pt) <> None <->
   exists r y, rent = Num r /\ yld = Num y /\ 0 < r /\ 0 < y) /\
  (content (recalculate yields CURRENT_GILT ModePrice rent price yld pt) <> None <->
   exists r p, rent = Num r /\ price = Num p /\ 0 < r /\ 0 < p) /\
  (forall mode,
     content (recalculate yields CURRENT_GILT mode rent price yld pt) = None ->
     valueChart (recalculate yields CURRENT_GILT mode rent price yld pt) = None).
Proof.
  split; [|split].
  - unfold recalculate.
    destruct (rejected_input rent yld) eqn:E.
    + split; [intros H; now contradiction H|].
      intros H. apply rejected_input_false_iff in H. congruence.
    + pose proof (proj1 (rejected_input_false_iff rent yld) E)
        as (r & y & -> & -> & Hr & Hy).
      split; [intros _; now exists r, y | discriminate].
  - unfold recalculate.
    destruct (rejected_input rent price) eqn:E.
    + split; [intros H; now contradiction H|].
      intros H. apply rejected_input_false_iff in H. congruence.
    + pose proof (proj1 (rejected_input_false_iff rent price) E)
        as (r & p & -> & -> & Hr & Hp).
      assert (HY : 0 < (r / p) * 100).
      { apply Qmult_lt_0_compat; [|reflexivity].
        apply Qmult_lt_0_compat; [exact Hr | now apply Qinv_lt_0_compat]. }
      rewrite (rejected_input_false r _ Hr HY).
      split; [intros _; now exists r, p | discriminate].
  - intros mode. unfold recalculate. destruct mode.
    + destruct (rejected_input rent yld) eqn:E; [reflexivity|].
      pose proof (proj1 (rejected_input_false_iff rent yld) E)
        as (r & y & -> & -> & _ & _). discriminate.
    + destruct (rejected_input rent price) eqn:E; [reflexivity|].
      pose proof (proj1 (rejected_input_false_iff rent price) E)
        as (r & p & -> & -> & Hr & Hp).
      assert (HY : 0 < (r / p) * 100).
      { apply Qmult_lt_0_compat; [|reflexivity].
        apply Qmult_lt_0_compat; [exact Hr | now apply Qinv_lt_0_compat]. }
      rewrite (rejected_input_false r _ Hr HY). discriminate.
Qed.

Lemma recalculate_panel_witness :
  content (recalculate [] 4.50 ModeYield (Num 250000) NaN (Num 5.50) 50) <> None /\
  (exists r y, Num 250000 = Num r /\ Num 5.50 = Num y /\ 0 < r /\ 0 < y) /\
  content (recalculate [] 4.50 ModePrice (Num 250000) NaN (Num 5.50) 50) = None /\
  valueChart (recalculate [] 4.50 ModePrice (Num 250000) NaN (Num 5.50) 50) = None.
Proof.
  destruct (recalculate_panel [] 4.50 (Num 250000) NaN (Num 5.50) 50)
    as (Hy & _ & Hhide).
  assert (H : content (recalculate [] 4.50 ModeYield (Num 250000) NaN (Num 5.50) 50)
              <> None) by discriminate.
  split; [exact H|]. split; [exact (proj1 Hy H)|].
  split; [reflexivity|]. apply (Hhide ModePrice). reflexivity.
Defined.

Lemma value_change_factor (R Y ny : Q) :
  0 < Y -> 0 < ny ->
  R / (ny / 100) - R / (Y / 100) == (100 * R / (ny * Y)) * (Y - ny).
Proof.
  intros HY Hn. field. split; intros E.
  - rewrite E in HY. exact (Qlt_irrefl _ HY).
  - rewrite E in Hn. exact (Qlt_irrefl _ Hn).
Qed.

Lemma value_factor_pos (R Y ny : Q) :
  0 < R -> 0 < Y -> 0 < ny -> 0 < 100 * R / (ny * Y).
Proof.
  intros HR HY Hn. apply Qmult_lt_0_compat.
  - apply Qmult_lt_0_compat; [reflexivity | exact HR].
  - apply Qinv_lt_0_compat. now apply Qmult_lt_0_compat.
Qed.

Lemma scenario_row_cell (R Y T V : Q) (d : Z) (row : ScenarioRow) :
  scenario_row R Y T V d = [row] ->
  changeCell row
  = if (d =? 0)%Z then Dash
    else if Qltb 0 (change row) then Positive (change row) (changePct row)
         else Negative (change row) (changePct row).
Proof.
  unfold scenario_row. destruct (Qleb _ 0); [discriminate|].
  intros H. injection H as <-. reflexivity.
Qed.

(** X21. For rent R > 0 and yield Y > 0 the scenario table moves the right
    way.  With a pass-through above 0, every row of a fall in gilt yields
    (negative delta) shows a gain, in the positive style, and every row of a
    rise shows a loss, in the negative style.  With a pass-through of 0 every
    row shows a change of 0, and the rows other than the current one are
    drawn in the negative style. *)
Theorem recalculate_direction (yields : list Q) (CURRENT_GILT R Y : Q)
    (priceInput : number) (pt : Z) :
  0 < R -> 0 < Y ->
  exists rows,
    content (recalculate yields CURRENT_GILT ModeYield (Num R) priceInput (Num Y) pt)
      = Some (Y, R / (Y / 100), rows) /\
    forall row, In row rows ->
      ((0 < pt)%Z -> (deltaBps row < 0)%Z ->
       0 < change row /\
       changeCell row = Positive (change row) (changePct row)) /\
      ((0 < pt)%Z -> (0 < deltaBps row)%Z ->
       change row < 0 /\
       changeCell row = Negative (change row) (changePct row)) /\
      (pt = 0%Z ->
       change row == 0 /\
       (deltaBps row <> 0%Z ->
        changeCell row = Negative (change row) (changePct row))).
Proof.
  intros HR HY.
  set (T := inject_Z pt / 100). set (V := R / (Y / 100)).
  exists (flat_map (scenario_row R Y T V) scenarios). split.
  - unfold recalculate. rewrite rejected_input_false by assumption. reflexivity.
  - intros row Hin. apply in_flat_map in Hin. destruct Hin as (d & _ & Hin).
    destruct (scenario_row_cases R Y T V d)
      as [[_ Hnil]|(Hlt & row' & Hone & Hdb & _ & Hnv & Hch & _)];
      [rewrite Hnil in Hin; destruct Hin|].
    pose proof (scenario_row_cell R Y T V d row' Hone) as Hcell.
    rewrite Hone in Hin. destruct Hin as [<-|[]]. rewrite Hdb.
    assert (Hchange : change row'
              == (100 * R / (scenario_yield Y T d * Y)) * (Y - scenario_yield Y T d)).
    { rewrite Hch, Hnv. unfold V. now apply value_change_factor. }
    pose proof (value_factor_pos R Y _ HR HY Hlt) as HK.
    assert (Hdiff : Y - scenario_yield Y T d == - (inject_Z d * inject_Z pt) / 10000).
    { unfold scenario_yield, T. field. }
    assert (Hprod : inject_Z d * inject_Z pt == inject_Z (d * pt))
      by (now rewrite inject_Z_mult).
    split; [|split].
    + intros Hpt Hd.
      assert (Hpos : 0 < change row').
      { rewrite Hchange. apply Qmult_lt_0_compat; [exact HK|].
        rewrite Hdiff, Hprod. unfold Qlt, Qdiv, Qopp, Qmult, Qinv, inject_Z. cbn. nia. }
      split; [exact Hpos|]. rewrite Hcell.
      destruct (Z.eqb_spec d 0); [lia|].
      now rewrite (proj2 (Qltb_true 0 (change row')) Hpos).
    + intros Hpt Hd.
      assert (Hneg : change row' < 0).
      { rewrite Hchange.
        assert (Hx : 0 < - (Y - scenario_yield Y T d)).
        { rewrite Hdiff, Hprod. unfold Qlt, Qdiv, Qopp, Qmult, Qinv, inject_Z. cbn. nia. }
        pose proof (Qmult_lt_0_compat _ _ HK Hx) as Hm.
        apply Qopp_lt_compat in Hm.
        setoid_replace (- (100 * R / (scenario_yield Y T d * Y)
                           * - (Y - scenario_yield Y T d)))
          with (100 * R / (scenario_yield Y T d * Y) * (Y - scenario_yield Y T d))
          in Hm by ring.
        exact Hm. }
      split; [exact Hneg|]. rewrite Hcell.
      destruct (Z.eqb_spec d 0); [lia|].
      assert (Hf : Qltb 0 (change row') = false)
        by (apply Qltb_false; now apply Qlt_le_weak).
      now rewrite Hf.
    + intros Hpt.
      assert (Hzero : change row' == 0).
      { rewrite Hchange, Hdiff, Hpt. unfold Qdiv. ring. }
      split; [exact Hzero|]. intros Hd. rewrite Hcell.
      destruct (Z.eqb_spec d 0); [lia|].
      assert (Hf : Qltb 0 (change row') = false)
        by (apply Qltb_false; rewrite Hzero; apply Qle_refl).
      now rewrite Hf.
Qed.

Lemma recalculate_direction_witness :
  (0 < 250000) /\ (0 < 5.50) /\
  exists rows,
    content (recalculate [] 4.50 ModeYield (Num 250000) NaN (Num 5.50) 50)
      = Some (5.50, 250000 / (5.50 / 100), rows) /\
    forall row, In row rows ->
      ((0 < 50)%Z -> (deltaBps row < 0)%Z ->
       0 < change row /\
       changeCell row = Positive (change row) (changePct row)) /\
      ((0 < 50)%Z -> (0 < deltaBps row)%Z ->
       change row < 0 /\
       changeCell row = Negative (change row) (changePct row)) /\
      (50%Z = 0%Z ->
       change row == 0 /\
       (deltaBps row <> 0%Z ->
        changeCell row = Negative (change row) (changePct row))).
Proof.
  split; [reflexivity|]. split; [reflexivity|].
  apply (recalculate_direction [] 4.50 250000 5.50 NaN 50); reflexivity.
Defined.

Local Close Scope Q_scope.

(** ** The trend line *)

Local Open Scope Q_scope.




Local Close Scope Q_scope.

(** ** The summary callout *)

Local Open Scope Q_scope.

Lemma find_nearest_value_some (data : Series) (target_date : datetime) :
  data <> [] -> exists v, find_nearest_value data target_date = Some v.
Proof.
  intros H. destruct (find_nearest_value_spec target_date data H) as (i & d & _ & Hf & _).
  now exists (yield d).
Qed.

(** X23. For the statistics of a series, the callout section of
    [generate_dashboard] raises [OverflowError] exactly when the latest date
    is within 90 days of [datetime.min] (ordinal 90 or less), and otherwise
    raises [TypeError] exactly when the value nearest to 30 days before the
    latest date is 0: [compute_stats] has then stored [None] as the month
    change, and the section compares it with 0. *)
Theorem summary_callout_raises (data : Series) (stats : Stats) :
  compute_stats data = Ok (Some stats) ->
  exists latest month_target v,
    data = removelast data ++ [latest] /\
    sub_days (toordinal (date latest)) 30 = Ok month_target /\
    find_nearest_value data month_target = Some v /\
    forall current_yield,
      (summary_callout data current_yield stats = CalloutOverflowError
       <-> (toordinal (date latest) <= 90)%Z) /\
      (summary_callout data current_yield stats = CalloutTypeError
       <-> (90 < toordinal (date latest))%Z /\ v == 0).
Proof.
  intros Hs.
  destruct (compute_stats_changes data stats Hs)
    as (latest & wt & mt & Hdata & _ & Hmt & _ & Hm & _).
  assert (Hne : data <> []).
  { intros E. rewrite E in Hdata. cbn in Hdata. discriminate. }
  assert (Hcd : current_date stats = date latest).
  { destruct data as [|first others]; [congruence|].
    destruct (compute_stats_inv first others stats Hs)
      as (_ & _ & _ & _ & _ & _ & _ & _ & _ & Hcd & _).
    rewrite Hcd. f_equal. rewrite Hdata at 1. apply last_last. }
  destruct (find_nearest_value_some data mt Hne) as [v Hv].
  exists latest, mt, v. split; [exact Hdata|]. split; [exact Hmt|]. split; [exact Hv|].
  intros h. unfold summary_callout. rewrite Hcd, Hm, Hv.
  pose proof (change_if_none (yield latest) v) as Hnone.
  unfold sub_days in Hmt |- *. cbv zeta in Hmt |- *.
  destruct ((1 <=? toordinal (date latest) - 30)%Z
            && (toordinal (date latest) - 30 <=? MAXORDINAL)%Z) eqn:E30;
    [|discriminate].
  apply andb_true_iff in E30. destruct E30 as [L30 U30].
  apply Z.leb_le in L30. apply Z.leb_le in U30.
  destruct ((1 <=? toordinal (date latest) - 90)%Z
            && (toordinal (date latest) - 90 <=? MAXORDINAL)%Z) eqn:E90;
    cbv iota beta.
  - apply andb_true_iff in E90. destruct E90 as [L90 _]. apply Z.leb_le in L90.
    destruct (change_if (yield latest) (Some v)).
    + split; [split; [discriminate | lia]|].
      split; [discriminate|]. intros [_ Hz]. apply Hnone in Hz. discriminate.
    + split; [split; [discriminate | lia]|].
      split; [intros _; split; [lia | now apply Hnone] | reflexivity].
  - apply andb_false_iff in E90.
    assert (Hlow : (toordinal (date latest) <= 90)%Z).
    { destruct E90 as [E|E]; apply Z.leb_gt in E; lia. }
    split; [split; [intros _; exact Hlow | reflexivity]|].
    split; [discriminate | intros [Hgt _]; lia].
Qed.

Lemma summary_callout_raises_witness :
  let data := [ mkObs (mkDate 2024 1 1) 0; mkObs (mkDate 2024 1 8) 0.25 ] in
  exists stats,
    compute_stats data = Ok (Some stats) /\
    exists latest month_target v,
      data = removelast data ++ [latest] /\
      sub_days (toordinal (date latest)) 30 = Ok month_target /\
      find_nearest_value data month_target = Some v /\
      forall current_yield,
        (summary_callout data current_yield stats = CalloutOverflowError
         <-> (toordinal (date latest) <= 90)%Z) /\
        (summary_callout data current_yield stats = CalloutTypeError
         <-> (90 < toordinal (date latest))%Z /\ v == 0).
Proof.
  intros data. eexists.
  assert (H : compute_stats data = Ok (Some _)) by (vm_compute; reflexivity).
  split; [exact H|]. exact (summary_callout_raises data _ H).
Defined.

(** X24. Without a live quote (the headline is the latest value of the
    series) and for values of four fractional digits, when the callout is
    computed its month-ago yield is the value found by the lookup 30 days
    before the latest date, and it says that yields have fallen exactly when
    the latest value is below that value; the verb for borrowing costs is
    [reducing] exactly when it says [fallen]. *)
Theorem summary_callout_month_ago (data : Series) (stats : Stats) (c : Callout) :
  compute_stats data = Ok (Some stats) ->
  Forall (fun d => four_digits (yield d)) data ->
  summary_callout data (current_yield stats) stats = CalloutShown c ->
  exists latest month_target v,
    data = removelast data ++ [latest] /\
    sub_days (toordinal (date latest)) 30 = Ok month_target /\
    find_nearest_value data month_target = Some v /\
    month_ago_yield c == v /\
    (yield_direction c = "fallen"%string <-> yield latest < v) /\
    (yield_direction c = "fallen"%string <-> borrowing_verb c = "reducing"%string) /\
    0 <= month_bps c.
Proof.
  intros Hs H4 Hc.
  destruct (compute_stats_changes data stats Hs)
    as (latest & wt & mt & Hdata & _ & Hmt & _ & Hm & _).
  assert (Hne : data <> []).
  { intros E. rewrite E in Hdata. cbn in Hdata. discriminate. }
  assert (Hcur : current_yield stats = yield latest).
  { destruct data as [|first others]; [congruence|].
    destruct (compute_stats_inv first others stats Hs)
      as (_ & _ & _ & _ & _ & _ & _ & _ & Hcy & _).
    rewrite Hcy. f_equal. rewrite Hdata at 1. apply last_last. }
  destruct (find_nearest_value_spec mt data Hne) as (i & d & Hi & Hv & _).
  exists latest, mt, (yield d).
  split; [exact Hdata|]. split; [exact Hmt|]. split; [exact Hv|].
  rewrite Forall_forall in H4.
  assert (Hl4 : four_digits (yield latest)).
  { apply H4. rewrite Hdata. apply in_or_app. right. now left. }
  assert (Hd4 : four_digits (yield d)) by (apply H4; eapply nth_error_In; eassumption).
  unfold summary_callout in Hc.
  destruct (sub_days (toordinal (current_date stats)) 90); [|discriminate].
  cbv zeta in Hc. rewrite Hm, Hv in Hc. unfold change_if in Hc.
  destruct (truthy (yield d)); [|discriminate].
  assert (Hr : round4 (yield latest - yield d) == yield latest - yield d).
  { apply round4_fixed. apply four_digits_plus; [exact Hl4 | now apply four_digits_opp]. }
  injection Hc as <-.
  cbn [month_ago_yield yield_direction borrowing_verb month_bps].
  rewrite Hcur. split; [rewrite Hr; ring|].
  destruct (Qltb (round4 (yield latest - yield d)) 0) eqn:E.
  - apply Qltb_true in E. rewrite Hr in E.
    split; [|split; [split; reflexivity|]].
    + split; [intros _|reflexivity]. apply Qlt_minus_iff in E. apply Qlt_minus_iff.
      setoid_replace (yield d + - yield latest)
        with (0 + - (yield latest - yield d)) by ring. exact E.
    + apply Qmult_le_0_compat;
        [exact (Qabs_nonneg (round4 (yield latest - yield d))) | discriminate].
  - apply Qltb_false in E. rewrite Hr in E.
    split; [|split; [split; discriminate|]].
    + split; [discriminate|]. intros Hlt. exfalso.
      apply (Qlt_not_le _ _ Hlt). apply Qle_minus_iff in E. exact E.
    + apply Qmult_le_0_compat;
        [exact (Qabs_nonneg (round4 (yield latest - yield d))) | discriminate].
Qed.

Lemma summary_callout_month_ago_witness :
  exists c,
    compute_stats sample_series = Ok (Some sample_series_stats) /\
    Forall (fun d => four_digits (yield d)) sample_series /\
    summary_callout sample_series (current_yield sample_series_stats)
      sample_series_stats = CalloutShown c /\
    exists latest month_target v,
      sample_series = removelast sample_series ++ [latest] /\
      sub_days (toordinal (date latest)) 30 = Ok month_target /\
      find_nearest_value sample_series month_target = Some v /\
      month_ago_yield c == v /\
      (yield_direction c = "fallen"%string <-> yield latest < v) /\
      (yield_direction c = "fallen"%string <-> borrowing_verb c = "reducing"%string) /\
      0 <= month_bps c.
Proof.
  eexists.
  assert (Hs : compute_stats sample_series = Ok (Some sample_series_stats))
    by (vm_compute; reflexivity).
  assert (Hc : summary_callout sample_series (current_yield sample_series_stats)
                 sample_series_stats = CalloutShown _) by (vm_compute; reflexivity).
  split; [exact Hs|]. split; [exact sample_series_four_digits|]. split; [exact Hc|].
  exact (summary_callout_month_ago sample_series sample_series_stats _ Hs
           sample_series_four_digits Hc).
Defined.

Local Close Scope Q_scope.

(** ** The number inputs of the page *)

Local Open Scope Q_scope.

Lemma keep_chars_app (keep : ascii -> bool) (a b : string) :
  keep_chars keep (a ++ b) = (keep_chars keep a ++ keep_chars keep b)%string.
Proof.
  induction a as [|c a IH]; cbn; [reflexivity|].
  destruct (keep c); cbn; now rewrite IH.
Qed.

Lemma digit_of_nonneg (c : ascii) (d : Z) : digit_of c = Some d -> (0 <= d)%Z.
Proof.
  unfold digit_of. cbv zeta. destruct (_ && _); [|discriminate].
  intros E. injection E as <-. apply Nat2Z.is_nonneg.
Qed.

Lemma read_digits_nonneg (s : string) :
  forall acc n v k r,
    read_digits s acc n = (v, k, r) -> (0 <= acc)%Z -> (0 <= v)%Z.
Proof.
  induction s as [|c s IH]; intros acc n v k r; cbn [read_digits].
  - intros E. injection E as <- _ _. auto.
  - destruct (digit_of c) as [d|] eqn:Ed.
    + intros E Hacc. apply (IH _ _ _ _ _ E).
      pose proof (digit_of_nonneg c d Ed). lia.
    + intros E. injection E as <- _ _. auto.
Qed.

Lemma parseFloat_digits_nonneg (s : string) (q : Q) :
  parseFloat_digits s = Num q -> 0 <= q.
Proof.
  unfold parseFloat_digits.
  destruct (read_digits s 0 0) as [[ip ni] r] eqn:Ei.
  assert (Hip : (0 <= ip)%Z) by (apply (read_digits_nonneg _ _ _ _ _ _ Ei); lia).
  assert (Hgen : forall fp nf, (0 <= fp)%Z ->
            0 <= inject_Z ip + inject_Z fp / inject_Z (10 ^ Z.of_nat nf)).
  { intros fp nf Hfp.
    assert (H0 : 0 <= inject_Z ip) by (unfold Qle; cbn; lia).
    assert (H1 : 0 <= inject_Z fp / inject_Z (10 ^ Z.of_nat nf)).
    { apply Qmult_le_0_compat; [unfold Qle; cbn; lia|].
      apply Qinv_le_0_compat. unfold Qle. cbn.
      assert (0 < 10 ^ Z.of_nat nf)%Z by (apply Z.pow_pos_nonneg; lia). lia. }
    setoid_replace 0 with (0 + 0) by ring. now apply Qplus_le_compat. }
  assert (Hplain : forall k : nat,
            (if (0 <? k + 0)%nat
             then Num (inject_Z ip + inject_Z 0 / inject_Z (10 ^ Z.of_nat 0))
             else NaN) = Num q -> 0 <= q).
  { intros k. destruct (0 <? k + 0)%nat; [|discriminate].
    intros E. injection E as <-. exact (Hgen 0%Z 0%nat (Z.le_refl 0)). }
  destruct r as [|c r']; [apply Hplain|].
  destruct (Ascii.eqb c ".") eqn:Ec.
  - apply Ascii.eqb_eq in Ec. subst c.
    destruct (read_digits r' 0 0) as [[fp nf] r''] eqn:Ef.
    assert (Hfp : (0 <= fp)%Z) by (apply (read_digits_nonneg _ _ _ _ _ _ Ef); lia).
    destruct (0 <? ni + nf)%nat; [|discriminate].
    intros E. injection E as <-. now apply Hgen.
  - assert (Hc : c <> "."%char) by (intros ->; vm_compute in Ec; discriminate).
    destruct c as [[] [] [] [] [] [] [] []]; try apply Hplain.
    now contradiction Hc.
Qed.

(** X25. [parseNumber] never gives a negative number: the minus sign is
    among the characters it removes before [parseFloat] reads the text, so a
    number that it returns is 0 or more. *)
Theorem parseNumber_nonneg (str : string) (q : Q) :
  parseNumber str = Num q -> 0 <= q.
Proof. apply parseFloat_digits_nonneg. Qed.

Lemma parseNumber_nonneg_witness :
  exists q, parseNumber "-1,250.5" = Num q /\ q == 1250.5 /\ 0 <= q.
Proof.
  eexists.
  assert (H : parseNumber "-1,250.5" = Num _) by (vm_compute; reflexivity).
  split; [exact H|]. split; [reflexivity|].
  exact (parseNumber_nonneg "-1,250.5" _ H).
Defined.

(** X26. A character that is neither a digit nor a dot has no effect on
    what [parseNumber] returns, wherever it stands in the text. *)
Theorem parseNumber_ignores (a b : string) (c : ascii) :
  is_digit_or_dot c = false ->
  parseNumber (a ++ String c b) = parseNumber (a ++ b).
Proof.
  intros Hc. unfold parseNumber. rewrite !keep_chars_app. cbn [keep_chars].
  now rewrite Hc.
Qed.

Lemma parseNumber_ignores_witness :
  is_digit_or_dot "," = false /\
  parseNumber ("1" ++ String "," "200") = parseNumber ("1" ++ "200").
Proof.
  assert (H : is_digit_or_dot "," = false) by (vm_compute; reflexivity).
  split; [exact H | exact (parseNumber_ignores "1" "200" "," H)].
Defined.

(** ** The page cache of the local server *)

(** The test of [do_GET] on the path. *)
Lemma do_GET_other_path (cache : Cache) (req : Request) :
  (String.eqb (req_path req) "/" || String.eqb (req_path req) "/index.html") = false ->
  do_GET cache req = (NoContent, cache, false).
Proof. intros H. unfold do_GET. now rewrite H. Qed.

Lemma do_GET_keeps_page (cache : Cache) (req : Request) (p : string) :
  cache_html cache = Some p ->
  fst (fst (do_GET cache req)) <> ServerError /\
  exists p', cache_html (snd (fst (do_GET cache req))) = Some p'.
Proof.
  intros Hp. unfold do_GET.
  destruct (negb _); cbn; [split; [discriminate | now exists p]|].
  rewrite Hp. destruct (Qltb _ _); cbn.
  - destruct (req_refresh req) as [page|]; cbn.
    + split; [discriminate | now exists page].
    + split; [discriminate | now exists p].
  - split; [discriminate | now exists p].
Qed.

Lemma do_GET_origin (cache : Cache) (req : Request) (body : string) :
  fst (fst (do_GET cache req)) = Page body \/
  cache_html (snd (fst (do_GET cache req))) = Some body ->
  cache_html cache = Some body \/ req_refresh req = Some body.
Proof.
  unfold do_GET. destruct (negb _); cbn.
  - intros [H|H]; [discriminate | now left].
  - destruct (cache_html cache) as [old|] eqn:Eh.
    + destruct (Qltb _ _); cbn.
      * destruct (req_refresh req) as [page|]; cbn.
        -- intros [H|H]; right; congruence.
        -- rewrite Eh. intros [H|H]; left; congruence.
      * rewrite Eh. intros [H|H]; left; congruence.
    + destruct (req_refresh req) as [page|]; cbn.
      * intros [H|H]; right; congruence.
      * rewrite Eh. intros [H|H]; discriminate.
Qed.

Lemma serve_cons (cache : Cache) (req : Request) (rest : list Request) :
  serve cache (req :: rest) =
  (fst (fst (do_GET cache req)) :: fst (serve (snd (fst (do_GET cache req))) rest),
   snd (serve (snd (fst (do_GET cache req))) rest)).
Proof.
  cbn [serve]. destruct (do_GET cache req) as [[resp cache'] b]. cbn.
  now destruct (serve cache' rest).
Qed.

(** X27. Once the server holds a page, it never answers with the error 500
    again, whatever the later requests and whether their refreshes fail or
    not, and it still holds a page at the end. *)
Theorem serve_no_error_after_page (cache : Cache) (reqs : list Request) (p : string) :
  cache_html cache = Some p ->
  ~ In ServerError (fst (serve cache reqs)) /\
  exists p', cache_html (snd (serve cache reqs)) = Some p'.
Proof.
  revert cache p. induction reqs as [|req rest IH]; intros cache p Hp.
  - cbn. split; [tauto | now exists p].
  - rewrite serve_cons. cbn [fst snd].
    destruct (do_GET_keeps_page cache req p Hp) as [Hr [p' Hp']].
    destruct (IH _ p' Hp') as [Hn He].
    split; [|exact He].
    intros [H|H]; [now apply Hr | now apply Hn].
Qed.

Lemma serve_no_error_after_page_witness :
  let cache := {| cache_html := Some "page"%string; cache_time := 0 |} in
  let reqs := [ mkRequest "/" 1000 None; mkRequest "/x" 1001 None;
                mkRequest "/index.html" 2000 (Some "new"%string) ] in
  cache_html cache = Some "page"%string /\
  ~ In ServerError (fst (serve cache reqs)) /\
  exists p', cache_html (snd (serve cache reqs)) = Some p'.
Proof.
  intros cache reqs.
  split; [reflexivity|].
  exact (serve_no_error_after_page cache reqs "page" eq_refl).
Defined.

(** X28. While the cached page is not older than [CACHE_TTL] seconds, the
    server answers every request for the page with the cached page and
    leaves the cache as it is, whatever a refresh would have given; other
    paths get the empty answer 204. *)
Theorem serve_fresh_cache (cache : Cache) (reqs : list Request) (p : string) :
  cache_html cache = Some p ->
  Forall (fun req => req_now req - cache_time cache <= CACHE_TTL) reqs ->
  serve cache reqs =
  (map (fun req =>
          if String.eqb (req_path req) "/" || String.eqb (req_path req) "/index.html"
          then Page p else NoContent) reqs,
   cache).
Proof.
  intros Hp Hall. induction Hall as [|req rest Hreq _ IH]; [reflexivity|].
  assert (Hg : do_GET cache req =
               (if String.eqb (req_path req) "/" || String.eqb (req_path req) "/index.html"
                then Page p else NoContent, cache, false)).
  { unfold do_GET. destruct (_ || _); cbn [negb]; [|reflexivity].
    rewrite Hp. apply Qltb_false in Hreq. now rewrite Hreq. }
  rewrite serve_cons, Hg. cbn [fst snd]. rewrite IH. reflexivity.
Qed.

Lemma serve_fresh_cache_witness :
  let cache := {| cache_html := Some "page"%string; cache_time := 100 |} in
  let reqs := [ mkRequest "/" 150 (Some "new"%string); mkRequest "/favicon.ico" 200 None;
                mkRequest "/index.html" 400 None ] in
  cache_html cache = Some "page"%string /\
  Forall (fun req => req_now req - cache_time cache <= CACHE_TTL) reqs /\
  serve cache reqs =
  (map (fun req =>
          if String.eqb (req_path req) "/" || String.eqb (req_path req) "/index.html"
          then Page "page" else NoContent) reqs,
   cache).
Proof.
  intros cache reqs.
  assert (Hall : Forall (fun req => req_now req - cache_time cache <= CACHE_TTL) reqs).
  { repeat constructor; vm_compute; discriminate. }
  split; [reflexivity|]. split; [exact Hall|].
  exact (serve_fresh_cache cache reqs "page" eq_refl Hall).
Defined.

(** X29. Every page that the server sends was cached at the start or is
    what the refresh of that request or of an earlier one gave: the [i]-th
    answer, when it is a page, is the initial page or the refresh result of
    a request of index [j <= i]. *)
Theorem serve_page_origin (cache : Cache) (reqs : list Request) (i : nat)
    (body : string) :
  nth_error (fst (serve cache reqs)) i = Some (Page body) ->
  cache_html cache = Some body \/
  exists j req, (j <= i)%nat /\ nth_error reqs j = Some req /\
                req_refresh req = Some body.
Proof.
  revert cache i. induction reqs as [|req rest IH]; intros cache i.
  - cbn. destruct i; discriminate.
  - rewrite serve_cons. cbn [fst]. destruct i as [|i]; cbn [nth_error].
    + intros E. injection E as E.
      destruct (do_GET_origin cache req body (or_introl E)) as [H|H]; [now left|].
      right. exists O, req. auto.
    + intros E. destruct (IH _ _ E) as [H|(j & r & Hj & Hr & Hb)].
      * destruct (do_GET_origin cache req body (or_intror H)) as [H'|H']; [now left|].
        right. exists O, req. split; [lia|]. auto.
      * right. exists (S j), r. split; [lia|]. auto.
Qed.

Lemma serve_page_origin_witness :
  let cache := {| cache_html := None; cache_time := 0 |} in
  let reqs := [ mkRequest "/" 1000 None; mkRequest "/" 1001 (Some "first"%string);
                mkRequest "/" 1100 (Some "second"%string) ] in
  nth_error (fst (serve cache reqs)) 2 = Some (Page "first") /\
  (cache_html cache = Some "first"%string \/
   exists j req, (j <= 2)%nat /\ nth_error reqs j = Some req /\
                 req_refresh req = Some "first"%string).
Proof.
  intros cache reqs.
  assert (H : nth_error (fst (serve cache reqs)) 2 = Some (Page "first"))
    by (vm_compute; reflexivity).
  split; [exact H | exact (serve_page_origin cache reqs 2 "first" H)].
Defined.

(** X30. A failed refresh is not remembered: when the refresh of a request
    for the page raises, the cache is left as it was, and the next request
    for the page at the same or a later time runs the refresh again. *)
Theorem do_GET_retries_after_failure (cache : Cache) (r1 r2 : Request) :
  (String.eqb (req_path r2) "/" || String.eqb (req_path r2) "/index.html") = true ->
  snd (do_GET cache r1) = true ->
  req_refresh r1 = None ->
  req_now r1 <= req_now r2 ->
  snd (fst (do_GET cache r1)) = cache /\
  snd (do_GET cache r2) = true.
Proof.
  intros Hp2 Hrun Hfail Hlater. unfold do_GET in *. rewrite Hp2. cbn [negb].
  destruct (negb _); [discriminate|].
  rewrite Hfail in *.
  destruct (cache_html cache) as [old|].
  - destruct (Qltb CACHE_TTL (req_now r1 - cache_time cache)) eqn:E1; [|discriminate].
    split; [reflexivity|].
    assert (E2 : Qltb CACHE_TTL (req_now r2 - cache_time cache) = true).
    { apply Qltb_true. apply Qltb_true in E1.
      eapply Qlt_le_trans; [exact E1|].
      apply Qplus_le_compat; [exact Hlater | apply Qle_refl]. }
    rewrite E2. now destruct (req_refresh r2).
  - split; [reflexivity|]. now destruct (req_refresh r2).
Qed.

Lemma do_GET_retries_after_failure_witness :
  let cache := {| cache_html := Some "page"%string; cache_time := 0 |} in
  let r1 := mkRequest "/" 1000 None in
  let r2 := mkRequest "/index.html" 1001 None in
  snd (fst (do_GET cache r1)) = cache /\ snd (do_GET cache r2) = true.
Proof.
  intros cache r1 r2.
  apply (do_GET_retries_after_failure cache r1 r2); vm_compute;
    try reflexivity; discriminate.
Defined.

Local Close Scope Q_scope.
